(** * Vigil: the sampling and session lifecycle engine

    A shallow embedding of the server side of Vigil
    ([server/src/sessionManager.ts], [server/src/monitor.ts] and the
    WebSocket command handler of [server/src/server.ts]) and the
    properties of its session store, its polling monitor and its registry
    of active monitors.

    Conventions.
    - SQLite [REAL] columns and JavaScript numbers that carry measurements
      ([cpu], [memory]) are rational numbers [Q], the finite IEEE doubles
      being rationals.  Comparisons are exact; the additions and the
      division of SQL [AVG] are rounded to the nearest double by [double].
      Integers ([pid], timestamps, row ids) are [Z].
    - [Date.now()] and [uuidv4()] read the environment; the value they
      return is an explicit argument of the function that calls them.
    - A JavaScript exception is the [Throw] constructor of [result].
    - An [async] function is cut at its [await]s: one definition for each
      piece that runs without interruption, and the suspended calls are
      part of the state. *)

From Stdlib Require Import ZArith QArith Qabs Qminmax Lia.
From stdpp Require Import gmap strings pretty list fin_maps sorting.

#[local] Open Scope string_scope.
#[local] Open Scope list_scope.
#[local] Open Scope Z_scope.

(** ** Results of fallible calls *)

Inductive result (A : Type) : Type :=
| Ok (a : A)
| Throw (message : string).
Arguments Ok {A} a.
Arguments Throw {A} message.

Definition is_ok {A} (r : result A) : bool :=
  match r with Ok _ => true | Throw _ => false end.

(** ** The session store: [sessionManager.ts] *)

Module SessionManager.

(** A row of table [sessions]; the TypeScript interface [Session]. *)
Record Session := mkSession {
  id : string;
  name : string;
  pid : Z;
  processName : string;
  command : string;
  startTime : Z;
  endTime : option Z;
  avgCpu : option Q;
  maxCpu : option Q;
  avgMemory : option Q;
  maxMemory : option Q
}.

(** A row of table [data_points].  [rowid] is the
    [INTEGER PRIMARY KEY AUTOINCREMENT] column. *)
Record DataPointRow := mkRow {
  rowid : Z;
  sessionId : string;
  timestamp : Z;
  cpu : Q;
  memory : Q;
  ppid : option Z
}.

(** A [REAL] column holds an IEEE 754 binary64 number.  The finite ones
    are rationals, so a value is a [Q]; [double q] is the binary64 number
    nearest to [q], ties to the even significand, with the gradual
    underflow of the format.  The overflow to infinity is left out: the
    samples are percentages and byte counts. *)
Definition half_even (n d : Z) : Z :=
  let q := n / d in
  match 2 * (n mod d) ?= d with
  | Lt => q
  | Gt => q + 1
  | Eq => if Z.even q then q else q + 1
  end.

Definition double_pos (n d : Z) : Q :=
  let k0 := Z.log2 n - Z.log2 d in
  let k := if (if 0 <=? k0 then d * 2 ^ k0 <=? n else d <=? n * 2 ^ (- k0))
           then k0 else k0 - 1 in
  let e := Z.max (k - 52) (-1074) in
  if 0 <=? e then inject_Z (half_even n (d * 2 ^ e) * 2 ^ e)
  else Qred (Qmake (half_even (n * 2 ^ (- e)) d) (Z.to_pos (2 ^ (- e)))).

Definition double (q : Q) : Q :=
  match Qnum (Qred q) with
  | 0 => 0%Q
  | Zpos n => double_pos (Zpos n) (Zpos (Qden (Qred q)))
  | Zneg n => Qopp (double_pos (Zpos n) (Zpos (Qden (Qred q))))
  end.

(** SQLite's [AVG] over [REAL] values divides the sum by the number of
    rows, in doubles.  How the sum is accumulated depends on the engine:
    before 3.44 one double addition per row; from 3.44 on the same
    additions with the rounding error of each one collected in a second
    double (Kahan-Babuska-Neumaier) and added back at the end. *)
Inductive Summation := Sequential | Compensated.

Definition sequential_step (sum x : Q) : Q := double (Qplus sum x).

Definition compensated_step (acc : Q * Q) (x : Q) : Q * Q :=
  let sum := fst acc in
  let t := double (Qplus sum x) in
  (t, double (Qplus (snd acc)
                (if Qle_bool (Qabs sum) (Qabs x)
                 then double (Qplus (double (Qminus x t)) sum)
                 else double (Qplus (double (Qminus sum t)) x)))).

Definition sqlite_sum (how : Summation) (xs : list Q) : Q :=
  match how with
  | Sequential => fold_left sequential_step xs 0%Q
  | Compensated =>
      let acc := fold_left compensated_step xs (0%Q, 0%Q) in
      double (Qplus (fst acc) (snd acc))
  end.

Definition sqlite_avg (how : Summation) (xs : list Q) : Q :=
  double (Qdiv (sqlite_sum how xs) (inject_Z (Z.of_nat (length xs)))).

(** The connection [db].  [sessions] is keyed by its primary key.
    [data_points] is in insertion order and [sequence] is the largest
    [rowid] handed out so far.

    [foreign_keys] is the connection's [PRAGMA foreign_keys].  The schema
    declares [FOREIGN KEY (sessionId) REFERENCES sessions(id) ON DELETE
    CASCADE], and SQLite enforces the clause only while the pragma is on.
    [initDatabase] never issues the pragma, so its value is the default the
    engine was compiled with: off for a stock SQLite, on for the SQLite
    bundled with better-sqlite3 (built with SQLITE_DEFAULT_FOREIGN_KEYS=1),
    the package [sessionManager.ts] imports.  The engine is not part of the
    repository, so the default is an argument of [initDatabase] and every
    result below is stated for both values or names the one it needs.

    [summation] is how the engine of the connection adds in [AVG].  It
    comes with the engine too; [initDatabase] opens the connection with
    an engine that compensates, and what is proved of the averages is
    proved for both. *)
Record Database := mkDb {
  foreign_keys : bool;
  summation : Summation;
  sessions : gmap string Session;
  data_points : list DataPointRow;
  sequence : Z
}.

Definition better_sqlite3_default_foreign_keys : bool := true.
Definition stock_sqlite_default_foreign_keys : bool := false.

(** [initDatabase] on a fresh file: [CREATE TABLE IF NOT EXISTS] twice,
    no pragma. *)
Definition initDatabase (engine_default_foreign_keys : bool) : Database :=
  {| foreign_keys := engine_default_foreign_keys;
     summation := Compensated;
     sessions := ∅;
     data_points := [];
     sequence := 0 |}.

Definition SQLITE_CONSTRAINT_PRIMARYKEY : string :=
  "UNIQUE constraint failed: sessions.id".
Definition SQLITE_CONSTRAINT_FOREIGNKEY : string :=
  "FOREIGN KEY constraint failed".

(** [createSession]: [uuid] is the value of [uuidv4()], [now] of
    [Date.now()].  The [INSERT] leaves the six remaining columns [NULL]. *)
Definition createSession (db : Database) (uuid : string) (now : Z)
    (name : string) (pid : Z) (processName command : string)
    : result (Database * Session) :=
  match sessions db !! uuid with
  | Some _ => Throw SQLITE_CONSTRAINT_PRIMARYKEY
  | None =>
      let session :=
        {| id := uuid; name := name; pid := pid;
           processName := processName; command := command;
           startTime := now; endTime := None;
           avgCpu := None; maxCpu := None;
           avgMemory := None; maxMemory := None |} in
      Ok ({| foreign_keys := foreign_keys db;
             summation := summation db;
             sessions := <[uuid := session]> (sessions db);
             data_points := data_points db;
             sequence := sequence db |}, session)
  end.

(** [addDataPoint]: one [INSERT INTO data_points].  The function itself
    looks at no session; the only check is the engine's foreign key. *)
Definition addDataPoint (db : Database) (sessionId : string)
    (timestamp : Z) (cpu memory : Q) (ppid : option Z) : result Database :=
  if foreign_keys db && negb (bool_decide (is_Some (sessions db !! sessionId)))
  then Throw SQLITE_CONSTRAINT_FOREIGNKEY
  else
    let row := {| rowid := sequence db + 1; sessionId := sessionId;
                  timestamp := timestamp; cpu := cpu; memory := memory;
                  ppid := ppid |} in
    Ok {| foreign_keys := foreign_keys db;
          summation := summation db;
          sessions := sessions db;
          data_points := data_points db ++ [row];
          sequence := sequence db + 1 |}.

(** [SELECT ... FROM data_points WHERE sessionId = ?] *)
Definition rows_of (db : Database) (sid : string) : list DataPointRow :=
  filter (λ r, sessionId r = sid) (data_points db).

(** SQL [AVG]: [NULL] over no row, the engine's average otherwise.
    Both columns are [NOT NULL], so every row counts. *)
Definition sql_avg (how : Summation) (xs : list Q) : option Q :=
  match xs with
  | [] => None
  | _ :: _ => Some (sqlite_avg how xs)
  end.

(** SQL [MAX]: one pass keeping the largest value; [NULL] over no row. *)
Definition max_step (acc : option Q) (x : Q) : option Q :=
  match acc with
  | None => Some x
  | Some m => Some (if Qle_bool x m then m else x)
  end.

Definition sql_max (xs : list Q) : option Q := fold_left max_step xs None.

Definition getSession (db : Database) (sessionId : string) : option Session :=
  sessions db !! sessionId.

(** [endSession]: the statistics query, then one [UPDATE] of the row with
    that id (no row: nothing changes), then [getSession]. *)
Definition endSession (db : Database) (now : Z) (sessionId : string)
    : Database * option Session :=
  let rows := rows_of db sessionId in
  let stats_avgCpu := sql_avg (summation db) (map cpu rows) in
  let stats_maxCpu := sql_max (map cpu rows) in
  let stats_avgMemory := sql_avg (summation db) (map memory rows) in
  let stats_maxMemory := sql_max (map memory rows) in
  let update (s : Session) :=
    {| id := id s; name := name s; pid := pid s;
       processName := processName s; command := command s;
       startTime := startTime s; endTime := Some now;
       avgCpu := stats_avgCpu; maxCpu := stats_maxCpu;
       avgMemory := stats_avgMemory; maxMemory := stats_maxMemory |} in
  let db' := {| foreign_keys := foreign_keys db;
                summation := summation db;
                sessions := alter update sessionId (sessions db);
                data_points := data_points db;
                sequence := sequence db |} in
  (db', getSession db' sessionId).

(** [deleteSession]: [DELETE FROM data_points WHERE sessionId = ?], then
    [DELETE FROM sessions WHERE id = ?], whose [changes] is the result.
    With the pragma on, the second statement also runs the
    [ON DELETE CASCADE] action. *)
Definition deleteSession (db : Database) (sessionId' : string)
    : Database * bool :=
  let points := filter (λ r, sessionId r ≠ sessionId') (data_points db) in
  let changes := if sessions db !! sessionId' is Some _ then 1 else 0 in
  let cascaded :=
    if foreign_keys db && (0 <? changes)
    then filter (λ r, sessionId r ≠ sessionId') points
    else points in
  ({| foreign_keys := foreign_keys db;
      summation := summation db;
      sessions := delete sessionId' (sessions db);
      data_points := cascaded;
      sequence := sequence db |}, 0 <? changes).

(** [updateSessionName] *)
Definition updateSessionName (db : Database) (sessionId : string)
    (name' : string) : Database * option Session :=
  let rename (s : Session) :=
    {| id := id s; name := name'; pid := pid s;
       processName := processName s; command := command s;
       startTime := startTime s; endTime := endTime s;
       avgCpu := avgCpu s; maxCpu := maxCpu s;
       avgMemory := avgMemory s; maxMemory := maxMemory s |} in
  let db' := {| foreign_keys := foreign_keys db;
                summation := summation db;
                sessions := alter rename sessionId (sessions db);
                data_points := data_points db;
                sequence := sequence db |} in
  (db', getSession db' sessionId).

(** The calls of the store's write interface, with the values read from
    the environment, and a run of them.  A statement that throws changes
    nothing. *)
Inductive StoreOp :=
| OpCreateSession (uuid : string) (now : Z) (name : string) (pid : Z)
    (processName command : string)
| OpAddDataPoint (sessionId : string) (timestamp : Z) (cpu memory : Q)
    (ppid : option Z)
| OpEndSession (now : Z) (sessionId : string)
| OpUpdateSessionName (sessionId : string) (name : string)
| OpDeleteSession (sessionId : string).

Definition apply_op (db : Database) (op : StoreOp) : Database :=
  match op with
  | OpCreateSession uuid now n p pn c =>
      match createSession db uuid now n p pn c with
      | Ok (db', _) => db'
      | Throw _ => db
      end
  | OpAddDataPoint sid t c m pp =>
      match addDataPoint db sid t c m pp with
      | Ok db' => db'
      | Throw _ => db
      end
  | OpEndSession now sid => fst (endSession db now sid)
  | OpUpdateSessionName sid n => fst (updateSessionName db sid n)
  | OpDeleteSession sid => fst (deleteSession db sid)
  end.

Definition run_ops (db : Database) (ops : list StoreOp) : Database :=
  fold_left apply_op ops db.

(** The two sides of the invariant of the specification. *)
Definition aggregates_null (s : Session) : Prop :=
  avgCpu s = None ∧ maxCpu s = None ∧ avgMemory s = None ∧ maxMemory s = None.

Definition aggregates_set (s : Session) : Prop :=
  is_Some (avgCpu s) ∧ is_Some (maxCpu s) ∧
  is_Some (avgMemory s) ∧ is_Some (maxMemory s).

(** The arithmetic mean and the maximum, as the specification words
    them. *)
Definition arithmetic_mean (xs : list Q) : Q :=
  Qdiv (fold_right Qplus 0%Q xs) (inject_Z (Z.of_nat (length xs))).

Definition is_maximum (m : Q) (xs : list Q) : Prop :=
  m ∈ xs ∧ ∀ x, x ∈ xs → Qle x m.

(** The values that are doubles and are added without rounding, and
    whose mean is a double. *)
Fixpoint sums_exact (total : Q) (xs : list Q) : Prop :=
  match xs with
  | [] => True
  | x :: xs => Qeq (double x) x ∧
               Qeq (double (Qplus total x)) (Qplus total x) ∧
               sums_exact (Qplus total x) xs
  end.

Definition mean_exact (xs : list Q) : Prop :=
  sums_exact 0%Q xs ∧ Qeq (double (arithmetic_mean xs)) (arithmetic_mean xs).

(** What the two statistics of one column are, by the number of rows.
    The average is the double the engine computes, which is the
    arithmetic mean where nothing is rounded on the way.  The maximum is
    one of the values and no value is above it. *)
Definition average_and_max (how : Summation) (avg mx : option Q)
    (xs : list Q) : Prop :=
  match xs with
  | [] => avg = None ∧ mx = None
  | _ :: _ =>
      avg = Some (sqlite_avg how xs) ∧
      (mean_exact xs → ∃ a, avg = Some a ∧ Qeq a (arithmetic_mean xs)) ∧
      ∃ m, mx = Some m ∧ is_maximum m xs
  end.

(** The same database file opened by another engine. *)
Definition opened_by (how : Summation) (db : Database) : Database :=
  {| foreign_keys := foreign_keys db;
     summation := how;
     sessions := sessions db;
     data_points := data_points db;
     sequence := sequence db |}.

(** What holds of every row: aggregates are written only together with
    [endTime], and the four of them are null together or set together. *)
Definition session_inv (s : Session) : Prop :=
  (endTime s = None → aggregates_null s) ∧
  (aggregates_null s ∨ aggregates_set s).

Definition sessions_inv (db : Database) : Prop :=
  ∀ sid s, sessions db !! sid = Some s → session_inv s.


(** A recording of three samples, as in the scenario of the
    specification: cpu 10, 20, 30 and memory 100, 200, 300. *)
Definition demo_session : Session :=
  mkSession "s1" "node - run" 1234 "node" "node app.js" 1000
    None None None None None.

Definition demo_created : Database :=
  run_ops (initDatabase better_sqlite3_default_foreign_keys)
    [OpCreateSession "s1" 1000 "node - run" 1234 "node" "node app.js"].

Definition demo_sampled : Database :=
  run_ops demo_created
    [OpAddDataPoint "s1" 1100 (10#1) (100#1) None;
     OpAddDataPoint "s1" 1600 (20#1) (200#1) None;
     OpAddDataPoint "s1" 2100 (30#1) (300#1) None].

Definition demo_ops : list StoreOp :=
  [OpCreateSession "s1" 1000 "node - run" 1234 "node" "node app.js";
   OpAddDataPoint "s1" 1100 (10#1) (100#1) None;
   OpAddDataPoint "s1" 1600 (20#1) (200#1) None;
   OpAddDataPoint "s1" 2100 (30#1) (300#1) None;
   OpEndSession 2500 "s1"].

Definition demo_ended : Database :=
  run_ops demo_sampled [OpEndSession 2500 "s1"].




Definition demo_finalized : Session :=
  mkSession "s1" "node - run" 1234 "node" "node app.js" 1000
    (Some 2500) (Some (20#1)) (Some (30#1)) (Some (200#1)) (Some (300#1)).

End SessionManager.

(** ** The polling monitor: [monitor.ts] *)

(** [haystack.includes(needle)] *)
Fixpoint includes (haystack needle : string) : bool :=
  String.prefix needle haystack ||
  match haystack with
  | EmptyString => false
  | String _ rest => includes rest needle
  end.

(** [String(n)] and the interpolation of an integer in a template. *)
Definition String_ (n : Z) : string := pretty n.

Module Monitor.

(** [ProcessInfo] of [types.ts], what [getProcessByPid] resolves to
    ([None] is its [null]). *)
Record ProcessInfo := mkInfo {
  info_pid : Z;
  info_name : string;
  info_cmd : string
}.

(** What [pidusage] resolves to, as far as [poll] reads it. *)
Record Stats := mkStats {
  stat_cpu : Q;
  stat_memory : Q;
  stat_ppid : Z
}.

(** How the promise of [pidusage(pid)] settles: resolved, or rejected
    with an [Error] of that message. *)
Inductive Sample :=
| Resolved (stats : Stats)
| Rejected (message : string).

Record DataPoint := mkPoint {
  timestamp : Z;
  cpu : Q;
  memory : Q;
  ppid : option Z
}.

(** The fields of class [ProcessMonitor].  A [Timeout] handle is the
    number the event loop gave it. *)
Record ProcessMonitor := mkMonitor {
  pid : Z;
  interval : Z;
  timer : option nat;
  isRunning : bool
}.

(** A monitor together with what the event loop holds for it:
    [armed], the timeouts set by [poll] that have neither fired nor been
    cleared; [polls], the calls of [poll] suspended at
    [await pidusage(...)]; [starts], the calls of [start] suspended at
    [await getProcessByPid(...)]. *)
Record Task := mkTask {
  this : ProcessMonitor;
  armed : list nat;
  next_timeout : nat;
  polls : nat;
  starts : nat
}.

(** [new ProcessMonitor(pid, interval)] *)
Definition new (pid interval : Z) : Task :=
  {| this := {| pid := pid; interval := interval;
                timer := None; isRunning := false |};
     armed := []; next_timeout := 0; polls := 0; starts := 0 |}.

Definition set_this (m : Task) (o : ProcessMonitor) : Task :=
  {| this := o; armed := armed m; next_timeout := next_timeout m;
     polls := polls m; starts := starts m |}.

Definition set_isRunning (m : Task) (b : bool) : Task :=
  set_this m {| pid := pid (this m); interval := interval (this m);
                timer := timer (this m); isRunning := b |}.

Definition set_timer (m : Task) (t : option nat) : Task :=
  set_this m {| pid := pid (this m); interval := interval (this m);
                timer := t; isRunning := isRunning (this m) |}.

Definition set_polls (m : Task) (n : nat) : Task :=
  {| this := this m; armed := armed m; next_timeout := next_timeout m;
     polls := n; starts := starts m |}.

Definition set_starts (m : Task) (n : nat) : Task :=
  {| this := this m; armed := armed m; next_timeout := next_timeout m;
     polls := polls m; starts := n |}.

(** [clearTimeout(t)] *)
Definition clearTimeout (m : Task) (t : nat) : Task :=
  {| this := this m; armed := filter (λ t', t' ≠ t) (armed m);
     next_timeout := next_timeout m; polls := polls m; starts := starts m |}.

(** [this.timer = setTimeout(() => this.poll(), this.interval)] *)
Definition setTimeout (m : Task) : Task :=
  set_timer
    {| this := this m; armed := next_timeout m :: armed m;
       next_timeout := S (next_timeout m);
       polls := polls m; starts := starts m |}
    (Some (next_timeout m)).

(** What [emit] was called with. *)
Inductive Emitted :=
| EmitData (dataPoint : DataPoint)
| EmitError (message : string)
| EmitStopped.

(** The listeners registered with [on], acting on the state [W] of
    whoever registered them.  [emit] calls them synchronously.  The
    ['data'] listener may throw (second component [Some message]): [poll]
    emits ['data'] inside its [try]. *)
Record Listeners (W : Type) := mkListeners {
  on_data : DataPoint → W → W * option string;
  on_error : string → W → W;
  on_stopped : W → W
}.
Arguments on_data {W}.
Arguments on_error {W}.
Arguments on_stopped {W}.

Section Methods.
Context {W : Type} (L : Listeners W).

(** [stop()] *)
Definition stop (m : Task) (w : W) : Task * W * list Emitted :=
  let m1 :=
    match timer (this m) with
    | Some t => set_timer (clearTimeout m t) None
    | None => m
    end in
  (set_isRunning m1 false, on_stopped L w, [EmitStopped]).

(** [poll()] up to its [await]. *)
Definition poll (m : Task) : Task :=
  if isRunning (this m) then set_polls m (S (polls m)) else m.

(** The end of [poll]: [if (this.isRunning) this.timer = setTimeout(...)]. *)
Definition reschedule (m : Task) : Task :=
  if isRunning (this m) then setTimeout m else m.

Definition process_gone (message : string) : bool :=
  includes message "No matching pid found" ||
  includes message "No such process".

(** [poll()] from its [await] on, once [pidusage] has settled; [now] is
    [Date.now()].  [None]: no call of [poll] is suspended. *)
Definition poll_resume (now : Z) (r : Sample) (m : Task) (w : W)
    : option (Task * W * list Emitted) :=
  match polls m with
  | O => None
  | S n =>
      let m := set_polls m n in
      let '(w1, emitted, caught) :=
        match r with
        | Resolved stats =>
            let dataPoint :=
              {| timestamp := now; cpu := stat_cpu stats;
                 memory := stat_memory stats;
                 ppid := Some (stat_ppid stats) |} in
            let '(w', thrown) := on_data L dataPoint w in
            (w', [EmitData dataPoint], thrown)
        | Rejected message => (w, [], Some message)
        end in
      match caught with
      | Some message =>
          if process_gone message then
            let '(m2, w2, stopped) := stop m w1 in
            Some (m2, on_error L "Process terminated" w2,
                  emitted ++ stopped ++ [EmitError "Process terminated"])
          else
            Some (reschedule m, on_error L message w1,
                  emitted ++ [EmitError message])
      | None => Some (reschedule m, w1, emitted)
      end
  end.

(** The callback of a timeout.  [None]: that timeout is not armed. *)
Definition timeout_fires (t : nat) (m : Task) : option Task :=
  if bool_decide (t ∈ armed m)
  then Some (poll (clearTimeout m t))
  else None.

(** [start()] up to its [await]; when already running it returns [null]
    at once. *)
Definition start (m : Task) : Task :=
  if isRunning (this m) then m else set_starts m (S (starts m)).

(** [start()] from its [await] on.  [None]: no call is suspended. *)
Definition start_resume (processInfo : option ProcessInfo) (m : Task)
    : option (Task * result ProcessInfo) :=
  match starts m with
  | O => None
  | S n =>
      let m := set_starts m n in
      match processInfo with
      | None =>
          Some (m, Throw ("Process with PID " +:+ String_ (pid (this m))
                            +:+ " not found"))
      | Some info => Some (poll (set_isRunning m true), Ok info)
      end
  end.

(** What can happen to one monitor, and a run of it. *)
Inductive Event :=
| CallStart
| LookupSettled (processInfo : option ProcessInfo)
| CallStop
| TimeoutFired (t : nat)
| PidusageSettled (now : Z) (r : Sample).

Definition step (e : Event) (m : Task) (w : W)
    : option (Task * W * list Emitted) :=
  match e with
  | CallStart => Some (start m, w, [])
  | LookupSettled r =>
      match start_resume r m with
      | Some (m', _) => Some (m', w, [])
      | None => None
      end
  | CallStop => Some (stop m w)
  | TimeoutFired t =>
      match timeout_fires t m with
      | Some m' => Some (m', w, [])
      | None => None
      end
  | PidusageSettled now r => poll_resume now r m w
  end.

Fixpoint run (es : list Event) (m : Task) (w : W)
    : option (Task * W * list Emitted) :=
  match es with
  | [] => Some (m, w, [])
  | e :: es' =>
      match step e m w with
      | Some (m', w', out) =>
          match run es' m' w' with
          | Some (m'', w'', out') => Some (m'', w'', out ++ out')
          | None => None
          end
      | None => None
      end
  end.

End Methods.

Definition is_data_or_error (e : Emitted) : bool :=
  match e with EmitData _ | EmitError _ => true | EmitStopped => false end.

Definition is_start (e : Event) : bool :=
  match e with CallStart => true | _ => false end.

Definition is_timeout (e : Event) : bool :=
  match e with TimeoutFired _ => true | _ => false end.

Definition is_pidusage (e : Event) : bool :=
  match e with PidusageSettled _ _ => true | _ => false end.

Definition no_restart (es : list Event) : bool :=
  forallb (λ e, negb (is_start e)) es.

Definition data_or_error (out : list Emitted) : list Emitted :=
  List.filter is_data_or_error out.

(** A monitor with one chain of polls: either a call of [poll] is
    suspended, or the timeout in [this.timer] is armed, never both. *)
Definition polling (m : Task) : Prop :=
  isRunning (this m) = true ∧ starts m = 0%nat ∧
  ((polls m = 1%nat ∧ armed m = []) ∨
   (polls m = 0%nat ∧ ∃ t, armed m = [t] ∧ timer (this m) = Some t)).

(** A stopped monitor: not running, no timeout armed, at most the one
    call of [poll] that was suspended when [stop] was called. *)
Definition quiet (m : Task) : Prop :=
  isRunning (this m) = false ∧ timer (this m) = None ∧ armed m = [] ∧
  starts m = 0%nat ∧ (polls m ≤ 1)%nat.

Definition single_chain (m : Task) : Prop := polling m ∨ quiet m.

(** What one call of [poll] emits on ['data'] and ['error'] once
    [pidusage] has settled. *)
Definition straggler (out : list Emitted) : Prop :=
  (∃ dataPoint, out = [EmitData dataPoint]) ∨
  (∃ message, out = [EmitError message]) ∨
  (∃ dataPoint message, out = [EmitData dataPoint; EmitError message]).

Definition never_throws {W} (L : Listeners W) : Prop :=
  ∀ dataPoint w, snd (on_data L dataPoint w) = None.

(** A process, a reading of it, and two ways [pidusage] fails. *)
Definition node : ProcessInfo := mkInfo 1234 "node" "node app.js".
Definition reading : Stats := mkStats (10#1) (100#1) 1.
Definition ESRCH : string := "kill ESRCH: No such process".
Definition EPERM : string := "kill EPERM: operation not permitted".

(** A monitor stopped while a call of [poll] is suspended, before and
    after a first reading. *)
Definition stopped_at_once : Task :=
  mkTask (mkMonitor 1234 500 None false) [] 0 1 0.

Definition stopped_later : Task :=
  mkTask (mkMonitor 1234 500 None false) [] 1 1 0.

Definition stopped_idle : Task :=
  mkTask (mkMonitor 1234 500 None false) [] 1 0 0.

Definition first_reading : list Event :=
  [PidusageSettled 1100 (Resolved reading); TimeoutFired 0].

Definition late_reading : list Event :=
  [CallStop; PidusageSettled 1600 (Resolved reading)].

Definition late_point : DataPoint := mkPoint 1600 (10#1) (100#1) (Some 1).

(** Listeners that only watch, and a ['data'] listener that always
    fails. *)
Definition silent : Listeners unit :=
  {| on_data := λ _ w, (w, None); on_error := λ _ w, w; on_stopped := λ w, w |}.

Definition failing : Listeners unit :=
  {| on_data := λ _ w, (w, Some "disk I/O error");
     on_error := λ _ w, w; on_stopped := λ w, w |}.

End Monitor.

(** ** The registry of active monitors: the WebSocket handler of [server.ts] *)

Module Server.
Import SessionManager.

(** The messages of type [WSMessage] that the handler produces. *)
Inductive WSMessage :=
| Datapoint (sessionId : string) (dataPoint : Monitor.DataPoint)
| Error (message : string) (sessionId : option string)
| Started (session : Session) (processInfo : Monitor.ProcessInfo)
| Stopped (session : option Session).

(** [broadcast(message)] reaches every open client; [ws.send] only the
    socket [ws] of the command. *)
Inductive Output :=
| Broadcast (message : WSMessage)
| Send (ws : nat) (message : WSMessage).

(** A value of [activeMonitors]; [monitor] is a reference into
    [monitors] below. *)
Record Entry := mkEntry {
  monitor : nat;
  sessionId : string
}.

(** What the listeners of a monitor act on: the database, the map
    [activeMonitors] (keyed by [String(pid)]) and what went out on the
    sockets, oldest first. *)
Record World := mkWorld {
  db : Database;
  activeMonitors : gmap string Entry;
  sent : list Output
}.

Definition set_db (w : World) (d : Database) : World :=
  {| db := d; activeMonitors := activeMonitors w; sent := sent w |}.

Definition set_activeMonitors (w : World) (a : gmap string Entry) : World :=
  {| db := db w; activeMonitors := a; sent := sent w |}.

Definition broadcast (m : WSMessage) (w : World) : World :=
  {| db := db w; activeMonitors := activeMonitors w;
     sent := sent w ++ [Broadcast m] |}.

Definition send (ws : nat) (m : WSMessage) (w : World) : World :=
  {| db := db w; activeMonitors := activeMonitors w;
     sent := sent w ++ [Send ws m] |}.

(** The three listeners the ['start'] case registers; they close over
    [pid] and [session]. *)
Definition listeners (pid : Z) (session : Session) : Monitor.Listeners World :=
  {| Monitor.on_data := λ dataPoint w,
       match addDataPoint (db w) (id session)
               (Monitor.timestamp dataPoint) (Monitor.cpu dataPoint)
               (Monitor.memory dataPoint) (Monitor.ppid dataPoint) with
       | Ok db' =>
           (broadcast (Datapoint (id session) dataPoint) (set_db w db'), None)
       | Throw e => (w, Some e)
       end;
     Monitor.on_error := λ message w,
       broadcast (Error message (Some (id session))) w;
     Monitor.on_stopped := λ w,
       set_activeMonitors w (delete (String_ pid) (activeMonitors w)) |}.

(** A ['start'] handler suspended at [await getProcessByPid(pid)]. *)
Record Handler := mkHandler {
  h_ws : nat;
  h_pid : Z;
  h_name : option string
}.

(** A monitor the handler constructed, with what its listeners closed
    over.  [awaiting] is the handler suspended at
    [await monitor.start()], as its socket and its [processInfo]. *)
Record Monitored := mkMonitored {
  task : Monitor.Task;
  m_pid : Z;
  session : Session;
  awaiting : option (nat * Monitor.ProcessInfo)
}.

Definition set_task (o : Monitored) (t : Monitor.Task) : Monitored :=
  {| task := t; m_pid := m_pid o; session := session o;
     awaiting := awaiting o |}.

Record State := mkState {
  world : World;
  monitors : gmap nat Monitored;
  handlers : gmap nat Handler;
  next_monitor : nat;
  next_handler : nat
}.

Definition set_world (st : State) (w : World) : State :=
  {| world := w; monitors := monitors st; handlers := handlers st;
     next_monitor := next_monitor st; next_handler := next_handler st |}.

Definition set_monitors (st : State) (ms : gmap nat Monitored) : State :=
  {| world := world st; monitors := ms; handlers := handlers st;
     next_monitor := next_monitor st; next_handler := next_handler st |}.

(** The server after [initDatabase()], before any message. *)
Definition init (engine_default_foreign_keys : bool) : State :=
  {| world := {| db := initDatabase engine_default_foreign_keys;
                 activeMonitors := ∅; sent := [] |};
     monitors := ∅; handlers := ∅; next_monitor := 0; next_handler := 0 |}.

(** What the event loop runs, one uninterrupted piece each.  The values
    of [uuidv4()], [Date.now()] and [toLocaleString()] come with the
    piece that reads them. *)
Inductive Event :=
| WsStart (ws : nat) (pid : Z) (name : option string)
| StartLookupSettled (h : nat) (processInfo : option Monitor.ProcessInfo)
    (uuid : string) (now : Z) (localeString : string)
| MonitorLookupSettled (m : nat) (processInfo : option Monitor.ProcessInfo)
| PidusageSettled (m : nat) (now : Z) (r : Monitor.Sample)
| TimeoutFired (m : nat) (t : nat)
| WsStop (ws : nat) (pid : Z) (now : Z)
| HttpDeleteSession (id : string).

(** [case 'start'], up to [await getProcessByPid(pid)]. *)
Definition start_received (st : State) (ws : nat) (pid : Z)
    (name : option string) : State :=
  if bool_decide (is_Some (activeMonitors (world st) !! String_ pid)) then
    set_world st
      (send ws (Error "Monitor already running for this process" None)
         (world st))
  else
    {| world := world st; monitors := monitors st;
       handlers := <[next_handler st := mkHandler ws pid name]> (handlers st);
       next_monitor := next_monitor st;
       next_handler := S (next_handler st) |}.

(** [name || `${processInfo.name} - ${new Date().toLocaleString()}`] *)
Definition sessionName (name : option string)
    (processInfo : Monitor.ProcessInfo) (localeString : string) : string :=
  match name with
  | Some n => if bool_decide (n = "") then
                Monitor.info_name processInfo +:+ " - " +:+ localeString
              else n
  | None => Monitor.info_name processInfo +:+ " - " +:+ localeString
  end.

(** [case 'start'], from the first [await] to [await monitor.start()].
    An exception is caught by the handler's [catch], which answers
    'Invalid message format'. *)
Definition start_looked_up (st : State) (h : nat)
    (processInfo : option Monitor.ProcessInfo) (uuid : string) (now : Z)
    (localeString : string) : option State :=
  match handlers st !! h with
  | None => None
  | Some (mkHandler ws pid name) =>
      let st := {| world := world st; monitors := monitors st;
                   handlers := delete h (handlers st);
                   next_monitor := next_monitor st;
                   next_handler := next_handler st |} in
      match processInfo with
      | None =>
          Some (set_world st
                  (send ws (Error "Process not found" None) (world st)))
      | Some info =>
          match createSession (db (world st)) uuid now
                  (sessionName name info localeString) pid
                  (Monitor.info_name info) (Monitor.info_cmd info) with
          | Throw _ =>
              Some (set_world st
                      (send ws (Error "Invalid message format" None)
                         (world st)))
          | Ok (db', session) =>
              let monitor := Monitor.start (Monitor.new pid 500) in
              Some {| world := set_db (world st) db';
                      monitors :=
                        <[next_monitor st :=
                            mkMonitored monitor pid session (Some (ws, info))]>
                          (monitors st);
                      handlers := handlers st;
                      next_monitor := S (next_monitor st);
                      next_handler := next_handler st |}
          end
      end
  end.

(** [monitor.start()] from its [await] on, then the rest of
    [case 'start']. *)
Definition start_completed (st : State) (m : nat)
    (processInfo : option Monitor.ProcessInfo) : option State :=
  match monitors st !! m with
  | None => None
  | Some o =>
      match Monitor.start_resume processInfo (task o), awaiting o with
      | Some (t, started), Some (ws, info) =>
          let o' := mkMonitored t (m_pid o) (session o) None in
          let w :=
            match started with
            | Ok _ =>
                broadcast (Started (session o) info)
                  (set_activeMonitors (world st)
                     (<[String_ (m_pid o) := mkEntry m (id (session o))]>
                        (activeMonitors (world st))))
            | Throw _ =>
                send ws (Error "Invalid message format" None) (world st)
            end in
          Some (set_world (set_monitors st (<[m := o']> (monitors st))) w)
      | _, _ => None
      end
  end.

(** A suspended [poll] of monitor [m] goes on. *)
Definition polled (st : State) (m : nat) (now : Z) (r : Monitor.Sample)
    : option State :=
  match monitors st !! m with
  | None => None
  | Some o =>
      match Monitor.poll_resume (listeners (m_pid o) (session o)) now r
              (task o) (world st) with
      | Some (t, w, _) =>
          Some (set_world
                  (set_monitors st (<[m := set_task o t]> (monitors st))) w)
      | None => None
      end
  end.

Definition timed_out (st : State) (m : nat) (t : nat) : option State :=
  match monitors st !! m with
  | None => None
  | Some o =>
      match Monitor.timeout_fires t (task o) with
      | Some t' => Some (set_monitors st (<[m := set_task o t']> (monitors st)))
      | None => None
      end
  end.

(** [case 'stop'] *)
Definition stop_received (st : State) (pid : Z) (now : Z) : option State :=
  match activeMonitors (world st) !! String_ pid with
  | None => Some st
  | Some entry =>
      match monitors st !! monitor entry with
      | None => None
      | Some o =>
          let '(t, w1, _) :=
            Monitor.stop (listeners (m_pid o) (session o)) (task o)
              (world st) in
          let '(db', session') := endSession (db w1) now (sessionId entry) in
          let w2 :=
            set_activeMonitors (set_db w1 db')
              (delete (String_ pid) (activeMonitors w1)) in
          Some (set_world
                  (set_monitors st
                     (<[monitor entry := set_task o t]> (monitors st)))
                  (broadcast (Stopped session') w2))
      end
  end.

(** [app.delete('/api/sessions/:id')], as far as the database goes. *)
Definition delete_requested (st : State) (id : string) : State :=
  set_world st (set_db (world st) (fst (deleteSession (db (world st)) id))).

Definition step (st : State) (e : Event) : option State :=
  match e with
  | WsStart ws pid name => Some (start_received st ws pid name)
  | StartLookupSettled h r uuid now loc => start_looked_up st h r uuid now loc
  | MonitorLookupSettled m r => start_completed st m r
  | PidusageSettled m now r => polled st m now r
  | TimeoutFired m t => timed_out st m t
  | WsStop _ pid now => stop_received st pid now
  | HttpDeleteSession id => Some (delete_requested st id)
  end.

Fixpoint run (st : State) (es : list Event) : option State :=
  match es with
  | [] => Some st
  | e :: es' =>
      match step st e with
      | Some st' => run st' es'
      | None => None
      end
  end.

(** Three runs of the server for the process [Monitor.node]: its
    process ends while it is monitored; a client stops it; two ['start']
    commands arrive before the first lookup settles. *)
Definition started_run : list Event :=
  [WsStart 0 1234 None;
   StartLookupSettled 0 (Some Monitor.node) "s1" 1000 "1/1/2026, 10:00:00";
   MonitorLookupSettled 0 (Some Monitor.node);
   PidusageSettled 0 1100 (Monitor.Resolved Monitor.reading);
   TimeoutFired 0 0].

Definition termination_run : list Event :=
  started_run ++ [PidusageSettled 0 1600 (Monitor.Rejected Monitor.ESRCH)].

Definition stop_run : list Event :=
  started_run ++ [WsStop 0 1234 1500].

Definition race_run : list Event :=
  [WsStart 0 1234 None;
   WsStart 1 1234 None;
   StartLookupSettled 0 (Some Monitor.node) "s1" 1000 "1/1/2026, 10:00:00";
   StartLookupSettled 1 (Some Monitor.node) "s2" 1001 "1/1/2026, 10:00:00";
   MonitorLookupSettled 0 (Some Monitor.node);
   MonitorLookupSettled 1 (Some Monitor.node)].

(** A client stops the recording and deletes the session while a poll
    is still suspended; the reading arrives afterwards. *)
Definition late_run : list Event :=
  started_run ++
  [WsStop 0 1234 1500; HttpDeleteSession "s1";
   PidusageSettled 0 1600 (Monitor.Resolved Monitor.reading)].

Definition session1 : Session :=
  mkSession "s1" "node - 1/1/2026, 10:00:00" 1234 "node" "node app.js" 1000
    None None None None None.

Definition session2 : Session :=
  mkSession "s2" "node - 1/1/2026, 10:00:00" 1234 "node" "node app.js" 1001
    None None None None None.

(** The server with one ['start'] for pid 9999 waiting for its lookup. *)
Definition looking_up : State :=
  start_received (init better_sqlite3_default_foreign_keys) 7 9999 None.

Definition point1 : Monitor.DataPoint :=
  Monitor.mkPoint 1100 (10#1) (100#1) (Some 1).

End Server.

(** ** The read side of the store: the queries of [sessionManager.ts] *)

Module Queries.
Import SessionManager.

(** The columns [timestamp, cpu, memory, ppid] of a row, as a
    [DataPoint]. *)
Definition to_point (r : DataPointRow) : Monitor.DataPoint :=
  Monitor.mkPoint (timestamp r) (cpu r) (memory r) (ppid r).

Definition timestamp_le (r1 r2 : DataPointRow) : Prop :=
  timestamp r1 ≤ timestamp r2.

#[global] Instance timestamp_le_dec : RelDecision timestamp_le.
Proof. intros r1 r2. unfold timestamp_le. apply _. Defined.

(** [getSessionWithData]: the session, then its rows
    [ORDER BY timestamp ASC].  SQL leaves the order of rows of equal
    timestamp open; the sort used here is one such order. *)
Definition getSessionWithData (db : Database) (sessionId : string)
    : option (Session * list Monitor.DataPoint) :=
  match getSession db sessionId with
  | None => None
  | Some session =>
      Some (session,
            map to_point (merge_sort timestamp_le (rows_of db sessionId)))
  end.

Definition startTime_ge (s1 s2 : Session) : Prop :=
  startTime s2 ≤ startTime s1.

#[global] Instance startTime_ge_dec : RelDecision startTime_ge.
Proof. intros s1 s2. unfold startTime_ge. apply _. Defined.

(** [getAllSessions]: [SELECT * FROM sessions ORDER BY startTime DESC]. *)
Definition getAllSessions (db : Database) : list Session :=
  merge_sort startTime_ge (map snd (map_to_list (sessions db))).

#[global] Instance timestamp_le_total : Total timestamp_le.
Proof. intros r1 r2. unfold timestamp_le. lia. Qed.

#[global] Instance timestamp_le_trans : Transitive timestamp_le.
Proof. intros r1 r2 r3. unfold timestamp_le. lia. Qed.

#[global] Instance startTime_ge_total : Total startTime_ge.
Proof. intros s1 s2. unfold startTime_ge. lia. Qed.

#[global] Instance startTime_ge_trans : Transitive startTime_ge.
Proof. intros s1 s2 s3. unfold startTime_ge. lia. Qed.

(** Properties of a store that its operations keep. *)

(** [AUTOINCREMENT]: row ids are positive, pairwise different and never
    above the recorded sequence. *)
Definition rowids_fresh (db : Database) : Prop :=
  NoDup (map rowid (data_points db)) ∧ 0 ≤ sequence db ∧
  ∀ r, r ∈ data_points db → 0 < rowid r ≤ sequence db.

(** Every sample belongs to a stored session. *)
Definition no_orphans (db : Database) : Prop :=
  ∀ r, r ∈ data_points db → is_Some (sessions db !! sessionId r).

(** A session is stored under its own id. *)
Definition keyed_by_id (db : Database) : Prop :=
  ∀ k s, sessions db !! k = Some s → id s = k.

(** The columns that no statement of the store updates. *)
Definition same_origin (s s' : Session) : Prop :=
  id s' = id s ∧ pid s' = pid s ∧ processName s' = processName s ∧
  command s' = command s ∧ startTime s' = startTime s.

Definition deletes (sid : string) (op : StoreOp) : bool :=
  match op with
  | OpDeleteSession sid' => bool_decide (sid' = sid)
  | _ => false
  end.

End Queries.

(** ** The HTTP routes of [server.ts] over the store *)

Module Api.
Import SessionManager Queries.

Inductive Body :=
| SessionsBody (sessions : list Session)
| SessionBody (session : Session) (dataPoints : list Monitor.DataPoint)
| RenamedBody (session : Session)
| SuccessBody
| ErrorBody (error : string).

Record Response := mkResponse {
  status : Z;
  body : Body
}.

(** [GET /api/sessions] *)
Definition get_sessions (db : Database) : Response :=
  mkResponse 200 (SessionsBody (getAllSessions db)).

(** [GET /api/sessions/:id] *)
Definition get_session (db : Database) (id : string) : Response :=
  match getSessionWithData db id with
  | None => mkResponse 404 (ErrorBody "Session not found")
  | Some (session, dataPoints) =>
      mkResponse 200 (SessionBody session dataPoints)
  end.

(** [PATCH /api/sessions/:id]; [name] is [req.body.name], [None] when
    the body has none.  [!name] also holds of the empty string. *)
Definition patch_session (db : Database) (id : string)
    (name : option string) : Database * Response :=
  match name with
  | None => (db, mkResponse 400 (ErrorBody "Name is required"))
  | Some n =>
      if bool_decide (n = "") then
        (db, mkResponse 400 (ErrorBody "Name is required"))
      else
        match updateSessionName db id n with
        | (db', None) => (db', mkResponse 404 (ErrorBody "Session not found"))
        | (db', Some session) => (db', mkResponse 200 (RenamedBody session))
        end
  end.

(** [DELETE /api/sessions/:id] *)
Definition delete_session (db : Database) (id : string)
    : Database * Response :=
  let '(db', deleted) := deleteSession db id in
  if deleted then (db', mkResponse 200 SuccessBody)
  else (db', mkResponse 404 (ErrorBody "Session not found")).

End Api.

(** ** Process lookup: [processScanner.ts] *)

Module ProcessScanner.

(** An element of what [psList()] resolves to, as far as it is read;
    [ps_cmd] is [None] where the property is [undefined]. *)
Record PsProcess := mkPs {
  ps_pid : Z;
  ps_name : string;
  ps_cmd : option string;
  ps_cpu : option Q;
  ps_memory : option Q
}.

(** [ProcessInfo] of [types.ts], in full. *)
Record ProcessInfo := mkProcessInfo {
  pid : Z;
  name : string;
  cmd : string;
  cpu : option Q;
  memory : option Q
}.

(** The object literal built from a process; [p.cmd || p.name] takes the
    name for a missing and for an empty command. *)
Definition describe (p : PsProcess) : ProcessInfo :=
  {| pid := ps_pid p;
     name := ps_name p;
     cmd := match ps_cmd p with
            | Some c => if bool_decide (c = "") then ps_name p else c
            | None => ps_name p
            end;
     cpu := ps_cpu p;
     memory := ps_memory p |}.

(** What the monitor and the registry read of it. *)
Definition info_of (i : ProcessInfo) : Monitor.ProcessInfo :=
  Monitor.mkInfo (pid i) (name i) (cmd i).

Definition RELEVANT_PROCESS_NAMES : list string :=
  ["node"; "python"; "python3"; "ffmpeg"; "java"; "ruby"; "php"; "go"; "rust"].

(** [getProcessByPid], given what [psList()] resolved to. *)
Definition getProcessByPid (processes : list PsProcess) (pid : Z)
    : option ProcessInfo :=
  describe <$> List.find (λ p, ps_pid p =? pid) processes.

Section Lists.
(** [String.prototype.toLowerCase] and [String.prototype.localeCompare]
    belong to the JavaScript engine and its locale. *)
Variable toLowerCase : string → string.
Variable localeCompare : string → string → Z.

Definition relevant (name : string) : bool :=
  existsb (λ r, includes (toLowerCase name) r) RELEVANT_PROCESS_NAMES.

Definition matches (searchTerm : string) (p : ProcessInfo) : bool :=
  includes (toLowerCase (name p)) searchTerm ||
  includes (toLowerCase (cmd p)) searchTerm.

(** [if (filter) { ... }]: no filter and the empty filter keep all. *)
Definition apply_filter (filter : option string) (l : list ProcessInfo)
    : list ProcessInfo :=
  match filter with
  | Some f =>
      if bool_decide (f = "") then l
      else List.filter (matches (toLowerCase f)) l
  | None => l
  end.

(** [l.sort((a, b) => a.name.localeCompare(b.name))], a stable sort. *)
Fixpoint insert_by_name (x : ProcessInfo) (l : list ProcessInfo)
    : list ProcessInfo :=
  match l with
  | [] => [x]
  | y :: l' =>
      if localeCompare (name x) (name y) <=? 0 then x :: y :: l'
      else y :: insert_by_name x l'
  end.

Definition sort_by_name (l : list ProcessInfo) : list ProcessInfo :=
  fold_right insert_by_name [] l.

Definition getProcessList (processes : list PsProcess)
    (filter : option string) : list ProcessInfo :=
  sort_by_name
    (apply_filter filter
       (map describe (List.filter (λ p, relevant (ps_name p)) processes))).

Definition getAllProcesses (processes : list PsProcess)
    (filter : option string) : list ProcessInfo :=
  sort_by_name (apply_filter filter (map describe processes)).

Definition name_le (a b : ProcessInfo) : Prop :=
  localeCompare (name a) (name b) ≤ 0.

End Lists.

(** A comparison to run the lists with: by length of the name. *)
Definition compare_length (a b : string) : Z :=
  Z.of_nat (String.length a) - Z.of_nat (String.length b).

Definition snapshot : list PsProcess :=
  [mkPs 1234 "node" (Some "node app.js") (Some (10#1)) (Some (100#1));
   mkPs 77 "zsh" None None None;
   mkPs 1234 "shadow" (Some "") None None].

End ProcessScanner.

(** ** What the registry keeps *)

Module Registry.
Import Server.

(** An entry of [activeMonitors] is sound: it names a monitor the server
    constructed for the pid it is filed under, with the session of that
    monitor, and that monitor is running and its start has completed. *)
Definition entry_ok (st : State) (k : string) (e : Entry) : Prop :=
  ∃ o, monitors st !! monitor e = Some o ∧
       k = String_ (m_pid o) ∧
       sessionId e = SessionManager.id (session o) ∧
       Monitor.isRunning (Monitor.this (task o)) = true ∧
       awaiting o = None.

Definition registry_inv (st : State) : Prop :=
  (∀ k e, activeMonitors (world st) !! k = Some e → entry_ok st k e) ∧
  (∀ m o, monitors st !! m = Some o → (m < next_monitor st)%nat).

(** The server with the session of [Server.started_run] recording, and
    with one ['start'] whose lookup is pending. *)
Definition recording : State :=
  default (init SessionManager.better_sqlite3_default_foreign_keys)
    (run (init SessionManager.better_sqlite3_default_foreign_keys) started_run).

(** The session the ['start'] case creates. *)
Definition session_for (uuid : string) (name : option string) (pid : Z)
    (info : Monitor.ProcessInfo) (now : Z) (localeString : string)
    : SessionManager.Session :=
  SessionManager.mkSession uuid (sessionName name info localeString) pid
    (Monitor.info_name info) (Monitor.info_cmd info) now
    None None None None None.

(** [recording] after one more reading. *)
Definition sampled : State :=
  default recording
    (step recording
       (PidusageSettled 0 1600 (Monitor.Resolved Monitor.reading))).

Definition polling_task : Monitor.Task :=
  Monitor.poll (Monitor.set_isRunning (Monitor.new 1234 500) true).

End Registry.

(** ** The client's view: the [onmessage] handler of [useWebSocket] *)

Module Client.
Import Server.

(** The state of the hook. *)
Record View := mkView {
  isConnected : bool;
  currentSession : option SessionManager.Session;
  dataPoints : list Monitor.DataPoint;
  isRecording : bool;
  error : option string
}.

(** [useState] initial values. *)
Definition initial : View := mkView false None [] false None.

(** [ws.onmessage], for a message that parses. *)
Definition onmessage (v : View) (message : WSMessage) : View :=
  match message with
  | Started session _ =>
      mkView (isConnected v) (Some session) [] true None
  | Datapoint _ dataPoint =>
      mkView (isConnected v) (currentSession v)
        (dataPoints v ++ [dataPoint]) (isRecording v) (error v)
  | Stopped session =>
      mkView (isConnected v) session (dataPoints v) false (error v)
  | Error message' _ =>
      mkView (isConnected v) (currentSession v) (dataPoints v)
        (if bool_decide (message' = "Process terminated") then false
         else isRecording v)
        (Some message')
  end.

(** What reaches the client on socket [ws]: every broadcast, and what
    was sent to that socket. *)
Definition received (ws : nat) (out : list Output) : list WSMessage :=
  omap (λ o, match o with
             | Broadcast m => Some m
             | Send ws' m => if bool_decide (ws' = ws) then Some m else None
             end) out.

Definition handle (v : View) (messages : list WSMessage) : View :=
  fold_left onmessage messages v.

End Client.

(** * Properties *)

(** ** The session store *)

Section SessionStore.
Import SessionManager.

Lemma double_Qeq (p q : Q) : Qeq p q → double p = double q.
Proof. intros H. unfold double. by rewrite (Qred_complete p q H). Qed.

Lemma double_opp (q : Q) : Qeq (double (Qopp q)) (Qopp (double q)).
Proof.
  unfold double. rewrite Qred_opp.
  destruct (Qred q) as [[|n|n] d]; cbn [Qnum Qden Qopp Z.opp].
  - reflexivity.
  - reflexivity.
  - symmetry. apply Qopp_involutive.
Qed.

Lemma double_exact_opp (q r : Q) :
  Qeq (double q) q → Qeq r (Qopp q) → Qeq (double r) (Qopp q).
Proof.
  intros Hq Hr. rewrite (double_Qeq r (Qopp q) Hr), double_opp, Hq.
  reflexivity.
Qed.

Lemma double_zero (q : Q) : Qeq q 0%Q → double q = 0%Q.
Proof. intros H. by rewrite (double_Qeq q 0%Q H). Qed.

Lemma double_Qeq_zero (q : Q) : Qeq q 0%Q → Qeq (double q) 0%Q.
Proof. intros H. by rewrite (double_zero q H). Qed.

Lemma sequential_fold (xs : list Q) (total total' : Q) :
  Qeq total' total → sums_exact total xs →
  Qeq (fold_left sequential_step xs total')
      (Qplus total (fold_right Qplus 0%Q xs)).
Proof.
  revert total total'.
  induction xs as [|x xs IH]; intros total total' Heq Hexact; simpl.
  - rewrite Heq. ring.
  - destruct Hexact as (_ & Hx & Hxs).
    rewrite (IH (Qplus total x)); [ring| |done].
    unfold sequential_step.
    rewrite (double_Qeq (Qplus total' x) (Qplus total x)), Hx; [done|].
    by rewrite Heq.
Qed.

Lemma compensated_fold (xs : list Q) (total : Q) (acc : Q * Q) :
  Qeq (fst acc) total → snd acc = 0%Q → Qeq (double total) total →
  sums_exact total xs →
  Qeq (fst (fold_left compensated_step xs acc))
      (Qplus total (fold_right Qplus 0%Q xs)) ∧
  Qeq (double (fst (fold_left compensated_step xs acc)))
      (fst (fold_left compensated_step xs acc)) ∧
  snd (fold_left compensated_step xs acc) = 0%Q.
Proof.
  revert total acc.
  induction xs as [|x xs IH]; intros total [sum err] Hsum Herr Htotal Hexact;
    simpl in *.
  - split; [rewrite Hsum; ring|]. split; [|done].
    by rewrite (double_Qeq sum total Hsum), Htotal.
  - destruct Hexact as (Hx & Hsx & Hxs). subst err.
    assert (Qeq (double (Qplus sum x)) (Qplus total x)) as Ht.
    { rewrite (double_Qeq (Qplus sum x) (Qplus total x)), Hsx; [done|].
      by rewrite Hsum. }
    destruct (IH (Qplus total x) (compensated_step (sum, 0%Q) x))
      as (Hfst & Hdouble & Hsnd); [done| |done|done|].
    + unfold compensated_step; simpl.
      apply double_zero. rewrite Qplus_0_l.
      destruct (Qle_bool (Qabs sum) (Qabs x)); apply double_Qeq_zero.
      * rewrite (double_exact_opp total); [|done|rewrite Ht; ring].
        rewrite Hsum. ring.
      * rewrite (double_exact_opp x); [|done|rewrite Ht, Hsum; ring].
        ring.
    + split; [rewrite Hfst; ring | done].
Qed.

Lemma sqlite_sum_exact (how : Summation) (xs : list Q) :
  sums_exact 0%Q xs → Qeq (sqlite_sum how xs) (fold_right Qplus 0%Q xs).
Proof.
  intros Hsums. destruct how; unfold sqlite_sum.
  - rewrite (sequential_fold xs 0%Q 0%Q); [ring|done|done].
  - destruct (compensated_fold xs 0%Q (0%Q, 0%Q))
      as (Hsum & Hdouble & Herr); try done.
    cbv zeta. rewrite Herr.
    rewrite (double_Qeq _ (fst (fold_left compensated_step xs (0%Q, 0%Q))))
      by ring.
    rewrite Hdouble, Hsum. ring.
Qed.

Lemma sqlite_avg_exact (how : Summation) (xs : list Q) :
  mean_exact xs → Qeq (sqlite_avg how xs) (arithmetic_mean xs).
Proof.
  intros [Hsums Hmean]. unfold sqlite_avg.
  rewrite <- Hmean. unfold arithmetic_mean.
  erewrite double_Qeq; [reflexivity|].
  by rewrite sqlite_sum_exact.
Qed.

Lemma sql_avg_nil (how : Summation) : sql_avg how [] = None.
Proof. reflexivity. Qed.

Lemma sql_avg_cons (how : Summation) (x : Q) (xs : list Q) :
  sql_avg how (x :: xs) = Some (sqlite_avg how (x :: xs)).
Proof. reflexivity. Qed.

Lemma max_fold (xs : list Q) (m0 : Q) :
  ∃ m, fold_left max_step xs (Some m0) = Some m ∧
       (m = m0 ∨ m ∈ xs) ∧ Qle m0 m ∧ ∀ x, x ∈ xs → Qle x m.
Proof.
  revert m0. induction xs as [|x xs IH]; intros m0; simpl.
  - exists m0. split; [done|]. split; [by left|].
    split; [apply Qle_refl|]. intros x Hx. by apply elem_of_nil in Hx.
  - destruct (Qle_bool x m0) eqn:Hle.
    + destruct (IH m0) as (m & Hm & Hin & Hge & Hall).
      exists m. split; [done|]. apply Qle_bool_iff in Hle.
      split; [destruct Hin; [by left | right; by constructor]|].
      split; [done|]. intros y Hy. apply elem_of_cons in Hy as [->|Hy].
      * by eapply Qle_trans.
      * by apply Hall.
    + destruct (IH x) as (m & Hm & Hin & Hge & Hall).
      exists m. split; [done|].
      assert (Qle m0 x) as Hm0.
      { apply Qlt_le_weak, Qnot_le_lt. intros H.
        apply Qle_bool_iff in H. congruence. }
      split; [right; destruct Hin as [->|Hin]; by constructor|].
      split; [by eapply Qle_trans|].
      intros y Hy. apply elem_of_cons in Hy as [->|Hy]; [done | by apply Hall].
Qed.

Lemma sql_max_nil : sql_max [] = None.
Proof. reflexivity. Qed.

Lemma sql_max_cons (x : Q) (xs : list Q) :
  ∃ m, sql_max (x :: xs) = Some m ∧ is_maximum m (x :: xs).
Proof.
  unfold sql_max; simpl.
  destruct (max_fold xs x) as (m & Hm & Hin & Hge & Hall).
  exists m. split; [done|]. split.
  - destruct Hin as [->|Hin]; by constructor.
  - intros y Hy. apply elem_of_cons in Hy as [->|Hy]; [done | by apply Hall].
Qed.

Lemma sql_average_and_max (how : Summation) (xs : list Q) :
  average_and_max how (sql_avg how xs) (sql_max xs) xs.
Proof.
  destruct xs as [|x xs]; [done|].
  unfold average_and_max. rewrite sql_avg_cons.
  split; [done|]. split; [|apply sql_max_cons].
  intros Hexact. eexists. split; [done|]. by apply sqlite_avg_exact.
Qed.

Lemma sql_avg_max_null (how : Summation) (xs : list Q) :
  (sql_avg how xs = None ↔ xs = []) ∧ (sql_max xs = None ↔ xs = []).
Proof.
  destruct xs as [|x xs]; [done|]. rewrite sql_avg_cons.
  destruct (sql_max_cons x xs) as (m & -> & _).
  split; split; discriminate.
Qed.


(** *** Finalization *)

Lemma endSession_lookup (db : Database) (now : Z) (sid : string) (s : Session) :
  sessions db !! sid = Some s →
  ∃ s', snd (endSession db now sid) = Some s' ∧
        getSession (fst (endSession db now sid)) sid = Some s' ∧
        id s' = id s ∧ name s' = name s ∧ startTime s' = startTime s ∧
        endTime s' = Some now ∧
        avgCpu s' = sql_avg (summation db) (map cpu (rows_of db sid)) ∧
        maxCpu s' = sql_max (map cpu (rows_of db sid)) ∧
        avgMemory s' =
          sql_avg (summation db) (map memory (rows_of db sid)) ∧
        maxMemory s' = sql_max (map memory (rows_of db sid)).
Proof.
  intros Hs. unfold endSession, getSession; simpl.
  rewrite lookup_alter_eq, Hs; simpl.
  eexists; repeat split; reflexivity.
Qed.

Lemma endSession_statistics (db : Database) (now : Z) (sid : string)
    (s : Session) :
  getSession db sid = Some s →
  ∃ s', snd (endSession db now sid) = Some s' ∧
        getSession (fst (endSession db now sid)) sid = Some s' ∧
        endTime s' = Some now ∧
        average_and_max (summation db) (avgCpu s') (maxCpu s')
          (map cpu (filter (λ r, sessionId r = sid) (data_points db))) ∧
        average_and_max (summation db) (avgMemory s') (maxMemory s')
          (map memory (filter (λ r, sessionId r = sid) (data_points db))).
Proof.
  intros Hs.
  destruct (endSession_lookup db now sid s Hs)
    as (s' & Hret & Hget & _ & _ & _ & Hend & Hac & Hmc & Ham & Hmm).
  exists s'. rewrite Hac, Hmc, Ham, Hmm. unfold rows_of.
  repeat split; try done; apply sql_average_and_max.
Qed.


(** C4, as the code has it.  [endSession] has no guard on [endTime].  Two
    calls in a row leave the store and return the record that the second
    call alone would; and on a stored session the second call sets
    [endTime] to the time of that call and computes the four aggregates
    anew from the rows stored at that moment, as the first call did. *)
Theorem endSession_last_call_wins (db : Database) (t1 t2 : Z) (sid : string) :
  endSession (fst (endSession db t1 sid)) t2 sid = endSession db t2 sid ∧
  ∀ s, getSession db sid = Some s →
    ∃ s', snd (endSession (fst (endSession db t1 sid)) t2 sid) = Some s' ∧
          endTime s' = Some t2 ∧
          average_and_max (summation (fst (endSession db t1 sid)))
            (avgCpu s') (maxCpu s')
            (map cpu (filter (λ r, sessionId r = sid)
                        (data_points (fst (endSession db t1 sid))))) ∧
          average_and_max (summation (fst (endSession db t1 sid)))
            (avgMemory s') (maxMemory s')
            (map memory (filter (λ r, sessionId r = sid)
                           (data_points (fst (endSession db t1 sid))))).
Proof.
  split.
  - unfold endSession, getSession, rows_of; simpl.
    rewrite alter_alter_eq. reflexivity.
  - intros s Hs.
    destruct (endSession_statistics db t1 sid s Hs) as (s1 & _ & Hs1 & _).
    destruct (endSession_statistics (fst (endSession db t1 sid)) t2 sid s1 Hs1)
      as (s' & Hret & _ & Hend & Hcpu & Hmemory).
    by exists s'.
Qed.

(** *** Appending *)

(** C5, as the code has it.  [addDataPoint] never reads [endTime]: for
    every session that has a row, finalized or not, the append succeeds
    and adds one row at the end of [data_points]. *)
Theorem addDataPoint_ignores_endTime (db : Database) (sid : string)
    (s : Session) (t : Z) (c m : Q) (pp : option Z) :
  getSession db sid = Some s →
  ∃ db', addDataPoint db sid t c m pp = Ok db' ∧
         data_points db' =
           (data_points db ++ [mkRow (sequence db + 1) sid t c m pp])%list ∧
         sessions db' = sessions db.
Proof.
  unfold getSession, addDataPoint. intros ->.
  rewrite bool_decide_eq_true_2 by eauto. rewrite andb_false_r.
  eexists; repeat split; reflexivity.
Qed.

(** C10, as the code has it.  [addDataPoint] checks nothing itself, and
    [initDatabase] leaves the pragma at the engine's default, so the
    outcome for an arbitrary id is the engine's: the row is appended when
    foreign keys are off or the session has a row, and the call throws,
    inserting nothing, when they are on and no session has that id. *)
Theorem addDataPoint_foreign_key (db : Database) (sid : string) (t : Z)
    (c m : Q) (pp : option Z) :
  (∀ d, foreign_keys (initDatabase d) = d) ∧
  match addDataPoint db sid t c m pp with
  | Ok db' =>
      (foreign_keys db = false ∨ is_Some (getSession db sid)) ∧
      data_points db' =
        (data_points db ++ [mkRow (sequence db + 1) sid t c m pp])%list ∧
      sessions db' = sessions db
  | Throw e =>
      foreign_keys db = true ∧ getSession db sid = None ∧
      e = SQLITE_CONSTRAINT_FOREIGNKEY
  end.
Proof.
  split; [done|]. unfold addDataPoint, getSession.
  destruct (foreign_keys db); simpl.
  - case_bool_decide as Hs; simpl.
    + split; [by right | done].
    + split; [done|]. split; [by apply eq_None_not_Some | done].
  - split; [by left | done].
Qed.

(** *** Deleting *)

Lemma filter_ne_twice (sid : string) (l : list DataPointRow) :
  filter (λ r, sessionId r ≠ sid) (filter (λ r, sessionId r ≠ sid) l) =
  filter (λ r, sessionId r ≠ sid) l.
Proof.
  induction l as [|r l IH]; [done|].
  rewrite (filter_cons _ r l). case_decide as Hr; [|done].
  rewrite filter_cons. rewrite decide_True by done. by rewrite IH.
Qed.

Lemma deleteSession_data_points (db : Database) (sid : string) :
  data_points (fst (deleteSession db sid)) =
  filter (λ r, sessionId r ≠ sid) (data_points db).
Proof.
  unfold deleteSession; simpl.
  destruct (foreign_keys db && _); [apply filter_ne_twice | done].
Qed.

(** C7.  [deleteSession] removes the session row and every sample row of
    that session, so that no sample of it can be queried afterwards, and
    returns whether a session row existed; other sessions and their
    samples are left as they were. *)
Theorem deleteSession_cascades (db : Database) (sid : string) :
  let db' := fst (deleteSession db sid) in
  getSession db' sid = None ∧
  rows_of db' sid = [] ∧
  (∀ r, r ∈ data_points db' → sessionId r ≠ sid) ∧
  snd (deleteSession db sid) = bool_decide (is_Some (getSession db sid)) ∧
  (∀ sid', sid' ≠ sid →
     getSession db' sid' = getSession db sid' ∧
     rows_of db' sid' = rows_of db sid').
Proof.
  intros db'. subst db'.
  assert (∀ r, r ∈ data_points (fst (deleteSession db sid)) →
               sessionId r ≠ sid) as Hall.
  { intros r. rewrite deleteSession_data_points.
    intros Hr. by apply list_elem_of_filter in Hr as [? _]. }
  split; [apply lookup_delete_eq|].
  split.
  { unfold rows_of.
    destruct (filter _ _) as [|r l] eqn:Hf; [done|].
    assert (r ∈ filter (λ r, sessionId r = sid)
                  (data_points (fst (deleteSession db sid)))) as Hr
      by (rewrite Hf; constructor).
    apply list_elem_of_filter in Hr as [Heq Hin]. by apply Hall in Hin. }
  split; [done|].
  split.
  { unfold deleteSession, getSession; simpl.
    by destruct (sessions db !! sid). }
  intros sid' Hne. split.
  { unfold getSession; simpl. by apply lookup_delete_ne. }
  unfold rows_of. rewrite deleteSession_data_points.
  induction (data_points db) as [|r l IH]; [done|].
  rewrite !filter_cons.
  destruct (decide (sessionId r = sid')) as [Heq|Hneq].
  - rewrite decide_True by congruence.
    rewrite filter_cons, decide_True by done. by rewrite IH.
  - destruct (decide (sessionId r ≠ sid)); [|done].
    rewrite filter_cons, decide_False by done. done.
Qed.


(** *** The invariant of the rows of [sessions] *)

Lemma stats_null_or_set (how : Summation) (rows : list DataPointRow) :
  (sql_avg how (map cpu rows) = None ∧ sql_max (map cpu rows) = None ∧
   sql_avg how (map memory rows) = None ∧ sql_max (map memory rows) = None) ∨
  (is_Some (sql_avg how (map cpu rows)) ∧ is_Some (sql_max (map cpu rows)) ∧
   is_Some (sql_avg how (map memory rows)) ∧
   is_Some (sql_max (map memory rows))).
Proof.
  destruct rows as [|r rows]; [by left | right]. simpl.
  destruct (sql_max_cons (cpu r) (map cpu rows)) as (? & -> & _).
  destruct (sql_max_cons (memory r) (map memory rows)) as (? & -> & _).
  repeat split; eauto.
Qed.

Lemma apply_op_inv (db : Database) (op : StoreOp) :
  sessions_inv db → sessions_inv (apply_op db op).
Proof.
  intros Hinv sid s. destruct op as [u now n p pn c|sid' t c m pp|now sid'|sid' n|sid']; simpl.
  - unfold createSession. destruct (sessions db !! u) eqn:Hu; [apply Hinv|].
    simpl. rewrite lookup_insert. case_decide; [|apply Hinv].
    intros [= <-]. split; [done | by left].
  - unfold addDataPoint. destruct (_ && _); apply Hinv.
  - rewrite lookup_alter. case_decide as Heq; [subst sid'|apply Hinv].
    destruct (sessions db !! sid) as [s0|]; [|done]. intros [= <-].
    split; [done|]. apply stats_null_or_set.
  - rewrite lookup_alter. case_decide as Heq; [subst sid'|apply Hinv].
    destruct (sessions db !! sid) as [s0|] eqn:Hs0; [|done]. intros [= <-].
    apply (Hinv _ _ Hs0).
  - rewrite lookup_delete. case_decide; [done | apply Hinv].
Qed.

Lemma run_ops_inv (ops : list StoreOp) (db : Database) :
  sessions_inv db → sessions_inv (run_ops db ops).
Proof.
  revert db. induction ops as [|op ops IH]; intros db Hinv; [done|].
  simpl. apply IH. by apply apply_op_inv.
Qed.

(** C2, as the code has it.  In every store reached by the write
    operations, a session whose four aggregates are set has [endTime] set,
    a session whose [endTime] is null has its four aggregates null, and the
    four aggregates are null together or set together.  ([endTime] set with
    null aggregates is what finalizing with no stored sample leaves.) *)
Theorem reachable_aggregates_imply_endTime (fk : bool) (ops : list StoreOp)
    (sid : string) (s : Session) :
  getSession (run_ops (initDatabase fk) ops) sid = Some s →
  (aggregates_set s → is_Some (endTime s)) ∧
  (endTime s = None → aggregates_null s) ∧
  (aggregates_null s ∨ aggregates_set s).
Proof.
  intros Hs.
  assert (session_inv s) as [Hnull Hsame].
  { eapply (run_ops_inv ops (initDatabase fk)); [|exact Hs].
    intros ? ? Hempty. simpl in Hempty. by rewrite lookup_empty in Hempty. }
  split; [|done].
  intros (Hset & _). destruct (endTime s) eqn:He; [eauto|].
  destruct (Hnull eq_refl) as (Hn & _). rewrite Hn in Hset.
  by destruct Hset.
Qed.


(** *** The scenario and the boundary cases *)

Example demo_ended_session :
  getSession demo_ended "s1" = Some demo_finalized ∧
  getSession (run_ops (opened_by Sequential demo_sampled)
                [OpEndSession 2500 "s1"]) "s1" = Some demo_finalized.
Proof. split; vm_compute; reflexivity. Qed.



(** C2 fails as an equivalence: a session finalized before any sample was
    stored has [endTime] set and its four aggregates null. *)
Lemma endTime_set_without_aggregates :
  ∃ s, getSession (run_ops demo_created [OpEndSession 2500 "s1"]) "s1" = Some s ∧
       ¬ (endTime s ≠ None ↔ aggregates_set s).
Proof.
  eexists. split; [vm_compute; reflexivity|].
  intros [Hset _]. destruct Hset as ([a Ha] & _); discriminate.
Qed.

Lemma reachable_aggregates_imply_endTime_witness :
  getSession (run_ops (initDatabase better_sqlite3_default_foreign_keys)
                demo_ops) "s1" = Some demo_finalized ∧
  (aggregates_set demo_finalized → is_Some (endTime demo_finalized)) ∧
  (endTime demo_finalized = None → aggregates_null demo_finalized) ∧
  (aggregates_null demo_finalized ∨ aggregates_set demo_finalized).
Proof.
  split; [vm_compute; reflexivity|].
  apply (reachable_aggregates_imply_endTime
           better_sqlite3_default_foreign_keys demo_ops "s1" demo_finalized).
  vm_compute. reflexivity.
Defined.

(** C4 fails: on the finalized session of the scenario a second call is
    not a no-op.  It moves [endTime] to the time of the second call, and
    after a late sample it also changes the aggregates. *)
Lemma endSession_twice_overwrites :
  (endTime <$> getSession demo_ended "s1") = Some (Some 2500) ∧
  (endTime <$> snd (endSession demo_ended 3000 "s1")) = Some (Some 3000) ∧
  fst (endSession demo_ended 3000 "s1") ≠ demo_ended ∧
  (maxCpu <$> getSession demo_ended "s1") = Some (Some (30#1)) ∧
  (maxCpu <$> snd (endSession
     (apply_op demo_ended (OpAddDataPoint "s1" 2600 (90#1) (900#1) None))
     3000 "s1")) = Some (Some (90#1)).
Proof.
  split; [vm_compute; reflexivity|].
  split; [vm_compute; reflexivity|].
  split.
  { intros H.
    apply (f_equal (λ d, endTime <$> getSession d "s1")) in H.
    vm_compute in H. discriminate. }
  split; vm_compute; reflexivity.
Qed.

(** C5 fails: on the finalized session of the scenario an append is
    accepted and stores a fourth row. *)
Lemma addDataPoint_after_endSession :
  (endTime <$> getSession demo_ended "s1") = Some (Some 2500) ∧
  length (rows_of demo_ended "s1") = 3%nat ∧
  ∃ db', addDataPoint demo_ended "s1" 2600 (90#1) (900#1) None = Ok db' ∧
         length (rows_of db' "s1") = 4%nat.
Proof.
  split; [vm_compute; reflexivity|].
  split; [vm_compute; reflexivity|].
  eexists. split; vm_compute; reflexivity.
Qed.

Lemma addDataPoint_ignores_endTime_witness :
  ∃ db', addDataPoint demo_ended "s1" 2600 (90#1) (900#1) None = Ok db' ∧
         data_points db' =
           (data_points demo_ended ++
              [mkRow (sequence demo_ended + 1) "s1" 2600 (90#1) (900#1) None])%list ∧
         sessions db' = sessions demo_ended.
Proof.
  apply (addDataPoint_ignores_endTime demo_ended "s1" demo_finalized).
  vm_compute. reflexivity.
Defined.

(** C10 fails on the engine the store is built on: with the foreign keys
    of better-sqlite3's bundled SQLite, an append for an id that no
    session has throws and stores nothing.  On a stock SQLite the same
    call stores an orphan row. *)
Lemma addDataPoint_unknown_session :
  addDataPoint (initDatabase better_sqlite3_default_foreign_keys)
    "ghost" 1 (1#1) (1#1) None = Throw SQLITE_CONSTRAINT_FOREIGNKEY ∧
  is_ok (addDataPoint (initDatabase stock_sqlite_default_foreign_keys)
    "ghost" 1 (1#1) (1#1) None) = true.
Proof. split; vm_compute; reflexivity. Qed.

End SessionStore.

(** ** The polling monitor *)

Section MonitorFacts.
Import Monitor.
Context {W : Type} (L : Listeners W).

Lemma stop_quiet (m : Task) (w : W) :
  starts m = 0%nat → (polls m ≤ 1)%nat →
  (armed m = [] ∨ ∃ t, armed m = [t] ∧ timer (this m) = Some t) →
  quiet (stop L m w).1.1 ∧ polls (stop L m w).1.1 = polls m ∧
  (stop L m w).2 = [EmitStopped].
Proof.
  intros Hstarts Hpolls Harmed. unfold stop, quiet.
  destruct (timer (this m)) as [t|] eqn:Ht; simpl.
  - repeat split; try done.
    destruct Harmed as [->|(t' & -> & [= ->])]; [done|].
    rewrite filter_cons, decide_False by (intros H; by apply H). done.
  - repeat split; try done.
    by destruct Harmed as [->|(t' & _ & ?)].
Qed.

Lemma single_chain_stop (m : Task) (w : W) :
  single_chain m → quiet (stop L m w).1.1.
Proof.
  intros Hm. apply stop_quiet.
  - by destruct Hm as [(_ & ? & _)|(_ & _ & _ & ? & _)].
  - destruct Hm as [(_ & _ & [[-> _]|[-> _]])|(_ & _ & _ & _ & ?)]; lia.
  - destruct Hm as [(_ & _ & [[_ ?]|[_ ?]])|(_ & _ & ? & _)]; auto.
Qed.

Lemma poll_resume_inv (now : Z) (r : Sample) (m m' : Task) (w w' : W)
    (out : list Emitted) :
  poll_resume L now r m w = Some (m', w', out) →
  ∃ n, polls m = S n ∧
       (m' = reschedule (set_polls m n) ∨
        ∃ w1, m' = (stop L (set_polls m n) w1).1.1) ∧
       straggler (data_or_error out) ∧
       (never_throws L → (length (data_or_error out) ≤ 1)%nat).
Proof.
  unfold poll_resume. destruct (polls m) as [|n] eqn:Hpolls; [done|].
  intros Hres. exists n. split; [done|].
  destruct r as [stats|message].
  - destruct (on_data L _ w) as [w1 thrown] eqn:Hdata.
    destruct thrown as [message|].
    + destruct (process_gone message).
      * injection Hres as <- <- <-.
        split; [right; by exists w1|].
        split; [right; right; by eexists _, _|].
        intros Hnever. apply (f_equal snd) in Hdata.
        rewrite Hnever in Hdata. discriminate.
      * injection Hres as <- <- <-.
        split; [by left|].
        split; [right; right; by eexists _, _|].
        intros Hnever. apply (f_equal snd) in Hdata.
        rewrite Hnever in Hdata. discriminate.
    + injection Hres as <- <- <-.
      split; [by left|]. split; [left; by eexists | done].
  - destruct (process_gone message).
    + injection Hres as <- <- <-.
      split; [right; by exists w|].
      split; [right; left; by eexists | done].
    + injection Hres as <- <- <-.
      split; [by left|]. split; [right; left; by eexists | done].
Qed.

Lemma step_single_chain (e : Event) (m m' : Task) (w w' : W)
    (out : list Emitted) :
  single_chain m → is_start e = false →
  step L e m w = Some (m', w', out) → single_chain m'.
Proof.
  intros Hm He Hstep.
  assert (starts m = 0%nat) as Hstarts
    by (destruct Hm as [(_ & ? & _)|(_ & _ & _ & ? & _)]; done).
  assert ((polls m ≤ 1)%nat) as Hpolls.
  { destruct Hm as [(_ & _ & [[-> _]|[-> _]])|(_ & _ & _ & _ & ?)]; lia. }
  assert (armed m = [] ∨ ∃ t, armed m = [t] ∧ timer (this m) = Some t)
    as Harmed.
  { destruct Hm as [(_ & _ & [[_ ?]|[_ ?]])|(_ & _ & ? & _)]; auto. }
  destruct e as [|r| |t|now r]; simpl in Hstep.
  - done.
  - unfold start_resume in Hstep. by rewrite Hstarts in Hstep.
  - right. destruct (stop L m w) as [[m1 w1] out1] eqn:Hstop.
    injection Hstep as <- <- <-.
    destruct (stop_quiet m w Hstarts Hpolls Harmed) as [Hq _].
    by rewrite Hstop in Hq.
  - unfold timeout_fires in Hstep. case_bool_decide as Hin; [|done].
    injection Hstep as <- <- <-.
    destruct Hm as [(Hrun & _ & [[_ Ha]|[Hp (t0 & Ha & Ht)]])|(_ & _ & Ha & _)];
      try (rewrite Ha in Hin; by apply elem_of_nil in Hin).
    rewrite Ha in Hin. apply list_elem_of_singleton in Hin as ->.
    left. unfold poll, clearTimeout; simpl. rewrite Hrun; simpl.
    repeat split; try done. left. rewrite Hp, Ha.
    rewrite filter_cons, decide_False by (intros H; by apply H). done.
  - apply poll_resume_inv in Hstep as (n & Hn & Hm' & _).
    assert (n = 0%nat) as -> by lia.
    destruct Hm' as [->|[w1 ->]].
    + unfold reschedule, setTimeout; simpl.
      destruct (isRunning (this m)) eqn:Hrun; simpl.
      * left. repeat split; try done. right. split; [done|].
        destruct Hm as [(_ & _ & [[_ Ha]|[Hp _]])|(Hr & _)];
          [|lia|congruence].
        rewrite Ha. by eexists.
      * right. destruct Hm as [(Hr & _)|(_ & Ht & Ha & _)]; [congruence|].
        repeat split; simpl; try done. lia.
    + right. apply stop_quiet; simpl; try done; lia.
Qed.

Lemma run_single_chain (es : list Event) (m m' : Task) (w w' : W)
    (out : list Emitted) :
  single_chain m → no_restart es = true →
  run L es m w = Some (m', w', out) → single_chain m'.
Proof.
  revert m w out. induction es as [|e es IH]; intros m w out Hm Hes Hrun.
  - by injection Hrun as <- <- <-.
  - simpl in Hes. apply andb_true_iff in Hes as [He Hes].
    apply negb_true_iff in He. simpl in Hrun.
    destruct (step L e m w) as [[[m1 w1] out1]|] eqn:Hstep; [|done].
    destruct (run L es m1 w1) as [[[m2 w2] out2]|] eqn:Hrest; [|done].
    injection Hrun as <- <- <-.
    eapply IH; [|done|done]. by eapply step_single_chain.
Qed.

Lemma started_polling (pid interval : Z) (info : ProcessInfo) (w : W) :
  run L [CallStart; LookupSettled (Some info)] (new pid interval) w =
    Some (poll (set_isRunning (new pid interval) true), w, []) ∧
  polling (poll (set_isRunning (new pid interval) true)).
Proof. split; [done|]. repeat split. by left. Qed.


Lemma run_app (es1 es2 : list Event) (m m' : Task) (w w' : W)
    (out : list Emitted) :
  run L (es1 ++ es2) m w = Some (m', w', out) →
  ∃ m1 w1 out1 out2,
    run L es1 m w = Some (m1, w1, out1) ∧
    run L es2 m1 w1 = Some (m', w', out2) ∧ out = out1 ++ out2.
Proof.
  revert m w out. induction es1 as [|e es1 IH]; intros m w out Hrun.
  - by exists m, w, [], out.
  - simpl in Hrun.
    destruct (step L e m w) as [[[ma wa] outa]|] eqn:Hstep; [|done].
    destruct (run L (es1 ++ es2) ma wa) as [[[mb wb] outb]|] eqn:Hrest;
      [|done].
    injection Hrun as <- <- <-.
    destruct (IH _ _ _ Hrest) as (m1 & w1 & out1 & out2 & H1 & H2 & ->).
    exists m1, w1, (outa ++ out1), out2. simpl. rewrite Hstep, H1.
    by rewrite app_assoc.
Qed.

Lemma quiet_step (e : Event) (m m' : Task) (w w' : W) (out : list Emitted) :
  quiet m → is_start e = false →
  step L e m w = Some (m', w', out) →
  quiet m' ∧ is_timeout e = false ∧
  ((is_pidusage e = true ∧ polls m = 1%nat ∧ polls m' = 0%nat ∧
    straggler (data_or_error out) ∧
    (never_throws L → (length (data_or_error out) ≤ 1)%nat)) ∨
   (is_pidusage e = false ∧ polls m' = polls m ∧ data_or_error out = [])).
Proof.
  intros Hq He Hstep.
  assert (single_chain m') as Hm'
    by (eapply step_single_chain; [by right|done|done]).
  destruct Hq as (Hrun & Ht & Ha & Hs & Hp).
  destruct e as [|r| |t|now r]; simpl in Hstep.
  - done.
  - unfold start_resume in Hstep. by rewrite Hs in Hstep.
  - destruct (stop_quiet m w Hs Hp (or_introl Ha)) as (Hq' & Hpolls & Hout).
    destruct (stop L m w) as [[m1 w1] out1]. injection Hstep as <- <- <-.
    simpl in *. subst out1. split; [done|]. split; [done|]. by right.
  - unfold timeout_fires in Hstep. rewrite Ha in Hstep.
    rewrite bool_decide_eq_false_2 in Hstep; [done|]. apply not_elem_of_nil.
  - destruct (poll_resume_inv _ _ _ _ _ _ _ Hstep)
      as (n & Hn & Hcase & Hshape & Hone).
    assert (n = 0%nat) as -> by lia.
    assert (polls m' = 0%nat ∧ quiet m') as [Hp' Hq'].
    { destruct Hcase as [->|[w1 ->]].
      - unfold reschedule. simpl. rewrite Hrun. simpl.
        split; [done|]. repeat split; simpl; try done. lia.
      - destruct (stop_quiet (set_polls m 0) w1) as (? & ? & _);
          simpl; try done; try lia; by left. }
    split; [done|]. split; [done|]. left. by repeat split.
Qed.

Lemma quiet_run (es : list Event) (m m' : Task) (w w' : W)
    (out : list Emitted) :
  quiet m → no_restart es = true →
  run L es m w = Some (m', w', out) →
  quiet m' ∧ List.filter is_timeout es = [] ∧
  (length (List.filter is_pidusage es) + polls m' = polls m)%nat ∧
  (data_or_error out = [] ∨
   (polls m = 1%nat ∧ straggler (data_or_error out) ∧
    (never_throws L → (length (data_or_error out) ≤ 1)%nat))).
Proof.
  revert m w out. induction es as [|e es IH]; intros m w out Hq Hes Hrun.
  - injection Hrun as <- <- <-.
    split; [done|]. split; [done|]. split; [done|]. by left.
  - simpl in Hes. apply andb_true_iff in Hes as [He Hes].
    apply negb_true_iff in He. simpl in Hrun.
    destruct (step L e m w) as [[[m1 w1] out1]|] eqn:Hstep; [|done].
    destruct (run L es m1 w1) as [[[m2 w2] out2]|] eqn:Hrest; [|done].
    injection Hrun as <- <- <-.
    destruct (quiet_step _ _ _ _ _ _ Hq He Hstep) as (Hq1 & Htime & Hcase).
    destruct (IH _ _ _ Hq1 Hes Hrest) as (Hq2 & Hnone & Hcount & Hout).
    split; [done|]. simpl. rewrite Htime. split; [done|].
    unfold data_or_error in *. rewrite List.filter_app.
    destruct Hcase as [(Hpid & Hp & Hp1 & Hshape & Hone)|(Hpid & Hp1 & Hnil)].
    + rewrite Hpid. simpl. split; [lia|]. right.
      destruct Hout as [->|(? & _)]; [|lia].
      rewrite app_nil_r. done.
    + rewrite Hpid, Hnil. simpl. split; [lia|].
      destruct Hout as [->|(? & ? & ?)]; [by left|right].
      split; [lia|done].
Qed.

(** C9, as the code has it.  For a monitor on which [start()] was called
    once, found the process and resumed before [stop()] was first called,
    and on which [start()] is not called again: after [stop()] the monitor
    is not running, no timeout is armed and none ever fires, so no new
    poll is scheduled; at
    most one call of [poll], the one suspended when [stop] was called, goes
    on, and it emits one ['data'] event, or one ['error'] event, or a
    ['data'] event followed by an ['error'] event when the ['data']
    listener throws.  With a listener that never throws that is at most
    one event. *)
Theorem stop_leaves_one_straggler (pid interval : Z) (info : ProcessInfo)
    (pre post : list Event) (w w1 w2 : W) (m1 m2 : Task)
    (out1 out2 : list Emitted) :
  no_restart pre = true → no_restart post = true →
  run L (CallStart :: LookupSettled (Some info) :: pre ++ [CallStop])
    (new pid interval) w = Some (m1, w1, out1) →
  run L post m1 w1 = Some (m2, w2, out2) →
  isRunning (this m2) = false ∧ timer (this m2) = None ∧ armed m2 = [] ∧
  List.filter is_timeout post = [] ∧
  (length (List.filter is_pidusage post) ≤ 1)%nat ∧
  (data_or_error out2 = [] ∨ straggler (data_or_error out2)) ∧
  (never_throws L → (length (data_or_error out2) ≤ 1)%nat).
Proof.
  intros Hpre Hpost Hrun1 Hrun2.
  change (CallStart :: LookupSettled (Some info) :: pre ++ [CallStop])
    with ([CallStart; LookupSettled (Some info)] ++ (pre ++ [CallStop]))
    in Hrun1.
  apply run_app in Hrun1 as (p & wp & outp & outq & Hstart & Hrun1 & _).
  destruct (started_polling pid interval info w) as [Hp Hpolling].
  rewrite Hp in Hstart. injection Hstart as <- <- <-.
  apply run_app in Hrun1 as (ma & wa & outa & outb & Hrunpre & Hstop & _).
  assert (single_chain ma) as Hma
    by exact (run_single_chain pre _ _ _ _ _ (or_introl Hpolling) Hpre Hrunpre).
  assert (quiet m1) as Hq1.
  { simpl in Hstop. injection Hstop as <- <- <-.
    exact (single_chain_stop ma wa Hma). }
  destruct (quiet_run _ _ _ _ _ _ Hq1 Hpost Hrun2)
    as (Hq2 & Hnone & Hcount & Hout).
  destruct Hq2 as (? & ? & ? & _ & ?). destruct Hq1 as (_ & _ & _ & _ & ?).
  repeat split; try done; try lia.
  - destruct Hout as [?|(_ & ? & _)]; auto.
  - intros Hnever. destruct Hout as [->|(_ & _ & Hone)]; [simpl; lia|auto].
Qed.

End MonitorFacts.

(** C9 fails as a bound of one event: with a ['data'] listener that
    throws, the poll that was suspended when [stop] was called emits a
    ['data'] and then an ['error'] event.  The bound needs the monitor
    not to be started again: [start] after [stop] is accepted and arms a
    timeout.  And it needs [start] to have resumed before [stop]: a
    [stop] while [start] awaits the lookup is overtaken, [start] sets
    [isRunning] when it resumes and the monitor polls on, timeout after
    timeout. *)
Lemma straggler_emits_data_then_error :
  Monitor.run Monitor.failing
    [Monitor.CallStart; Monitor.LookupSettled (Some Monitor.node);
     Monitor.CallStop] (Monitor.new 1234 500) () =
    Some (Monitor.stopped_at_once, (), [Monitor.EmitStopped]) ∧
  (∃ m2 out2,
     Monitor.run Monitor.failing
       [Monitor.PidusageSettled 1600 (Monitor.Resolved Monitor.reading)]
       Monitor.stopped_at_once () = Some (m2, (), out2) ∧
     Monitor.data_or_error out2 =
       [Monitor.EmitData Monitor.late_point;
        Monitor.EmitError "disk I/O error"] ∧
     ¬ (length (Monitor.data_or_error out2) ≤ 1)%nat) ∧
  (∃ m2 out2,
     Monitor.run Monitor.silent
       [Monitor.CallStart; Monitor.LookupSettled (Some Monitor.node);
        Monitor.PidusageSettled 1600 (Monitor.Resolved Monitor.reading);
        Monitor.PidusageSettled 1700 (Monitor.Resolved Monitor.reading)]
       Monitor.stopped_at_once () = Some (m2, (), out2) ∧
     Monitor.isRunning (Monitor.this m2) = true ∧
     length (Monitor.armed m2) = 2%nat ∧
     length (Monitor.data_or_error out2) = 2%nat) ∧
  (∃ m2 out2,
     Monitor.run Monitor.silent
       [Monitor.CallStart; Monitor.CallStop;
        Monitor.LookupSettled (Some Monitor.node);
        Monitor.PidusageSettled 1600 (Monitor.Resolved Monitor.reading);
        Monitor.TimeoutFired 0;
        Monitor.PidusageSettled 2100 (Monitor.Resolved Monitor.reading)]
       (Monitor.new 1234 500) () = Some (m2, (), out2) ∧
     Monitor.isRunning (Monitor.this m2) = true ∧
     length (Monitor.armed m2) = 1%nat ∧
     length (Monitor.data_or_error out2) = 2%nat).
Proof.
  split; [reflexivity|]. split; [|split].
  - eexists _, _. split; [reflexivity|]. split; [reflexivity|].
    simpl. lia.
  - eexists _, _. split; [reflexivity|]. by repeat split.
  - eexists _, _. split; [reflexivity|]. by repeat split.
Qed.

Lemma stop_leaves_one_straggler_witness :
  Monitor.isRunning (Monitor.this Monitor.stopped_idle) = false ∧
  Monitor.timer (Monitor.this Monitor.stopped_idle) = None ∧
  Monitor.armed Monitor.stopped_idle = [] ∧
  List.filter Monitor.is_timeout Monitor.late_reading = [] ∧
  (length (List.filter Monitor.is_pidusage Monitor.late_reading) ≤ 1)%nat ∧
  (Monitor.data_or_error
     [Monitor.EmitStopped; Monitor.EmitData Monitor.late_point] = [] ∨
   Monitor.straggler
     (Monitor.data_or_error
        [Monitor.EmitStopped; Monitor.EmitData Monitor.late_point])) ∧
  (Monitor.never_throws Monitor.silent →
   (length
      (Monitor.data_or_error
         [Monitor.EmitStopped; Monitor.EmitData Monitor.late_point]) ≤ 1)%nat).
Proof.
  apply (stop_leaves_one_straggler Monitor.silent 1234 500 Monitor.node
           Monitor.first_reading Monitor.late_reading () () ()
           Monitor.stopped_later Monitor.stopped_idle
           [Monitor.EmitData (Monitor.mkPoint 1100 (10#1) (100#1) (Some 1));
            Monitor.EmitStopped]
           [Monitor.EmitStopped; Monitor.EmitData Monitor.late_point]);
    reflexivity.
Defined.

(** ** The registry *)

Section ServerFacts.
Import SessionManager Server.

(** What the end of the monitored process does to the server, whatever
    its state: the entry of the pid goes, one error is broadcast, and the
    database is not touched. *)
Lemma polled_process_gone (st : State) (m : nat) (o : Monitored) (n : nat)
    (now : Z) (message : string) :
  monitors st !! m = Some o → Monitor.polls (task o) = S n →
  Monitor.process_gone message = true →
  ∃ st', polled st m now (Monitor.Rejected message) = Some st' ∧
         db (world st') = db (world st) ∧
         activeMonitors (world st') =
           delete (String_ (m_pid o)) (activeMonitors (world st)) ∧
         sent (world st') =
           sent (world st) ++
             [Broadcast (Error "Process terminated" (Some (id (session o))))].
Proof.
  intros Hm Hpolls Hgone. unfold polled, Monitor.poll_resume.
  rewrite Hm, Hpolls, Hgone. simpl. eexists. by repeat split.
Qed.

(** What the ['stop'] command does for a pid with an entry: the session of
    the entry is finalized, the entry goes, and the refreshed session is
    broadcast once. *)
Lemma stop_received_finalizes (st : State) (pid : Z) (now : Z) (e : Entry)
    (o : Monitored) :
  activeMonitors (world st) !! String_ pid = Some e →
  monitors st !! monitor e = Some o →
  ∃ st', stop_received st pid now = Some st' ∧
         db (world st') = fst (endSession (db (world st)) now (sessionId e)) ∧
         activeMonitors (world st') !! String_ pid = None ∧
         sent (world st') =
           sent (world st) ++
             [Broadcast
                (Stopped (snd (endSession (db (world st)) now (sessionId e))))].
Proof.
  intros He Ho. unfold stop_received. rewrite He, Ho. simpl.
  eexists. split; [reflexivity|]. simpl.
  split; [done|]. split; [apply lookup_delete_eq | done].
Qed.

(** A ['start'] for a pid that has an entry is refused and changes
    nothing but the answer. *)
Lemma start_received_active (st : State) (ws : nat) (pid : Z)
    (name : option string) (e : Entry) :
  activeMonitors (world st) !! String_ pid = Some e →
  start_received st ws pid name =
    set_world st
      (send ws (Error "Monitor already running for this process" None)
         (world st)).
Proof.
  intros He. unfold start_received.
  by rewrite bool_decide_eq_true_2 by (rewrite He; eauto).
Qed.

(** C1, where the code departs from it.  The process of a monitored pid
    ends: [pidusage] rejects with "No such process" while the monitor
    polls.  The entry of the pid is removed and one error "Process
    terminated" is broadcast, but the session is left as it was created,
    with [endTime] and the aggregates null, and no finalized session is
    broadcast.  The ['stop'] command on the same state does finalize and
    broadcast the session. *)
Theorem termination_leaves_session_open :
  (∃ st, run (init better_sqlite3_default_foreign_keys) termination_run =
           Some st ∧
         activeMonitors (world st) !! String_ 1234 = None ∧
         getSession (db (world st)) "s1" = Some session1 ∧
         endTime session1 = None ∧
         sent (world st) =
           [Broadcast (Started session1 Monitor.node);
            Broadcast (Datapoint "s1" point1);
            Broadcast (Error "Process terminated" (Some "s1"))]) ∧
  (∃ st finalized,
         run (init better_sqlite3_default_foreign_keys) stop_run = Some st ∧
         activeMonitors (world st) !! String_ 1234 = None ∧
         getSession (db (world st)) "s1" = Some finalized ∧
         endTime finalized = Some 1500 ∧
         maxCpu finalized = Some (10#1) ∧
         sent (world st) =
           [Broadcast (Started session1 Monitor.node);
            Broadcast (Datapoint "s1" point1);
            Broadcast (Stopped (Some finalized))]).
Proof.
  split.
  - eexists. split; [vm_compute; reflexivity|].
    repeat split; vm_compute; reflexivity.
  - eexists _, _. split; [vm_compute; reflexivity|].
    repeat split; vm_compute; reflexivity.
Qed.

(** The ['data'] listener of the server does throw: a reading that
    arrives after the session was deleted is refused by the foreign key
    and comes out as an error; with foreign keys off it is stored as a row
    of no session and broadcast. *)
Example late_reading_after_delete :
  (sent ∘ world <$> run (init better_sqlite3_default_foreign_keys) late_run)
    ≫= last =
    Some (Broadcast (Error SQLITE_CONSTRAINT_FOREIGNKEY (Some "s1"))) ∧
  (data_points ∘ db ∘ world <$>
     run (init better_sqlite3_default_foreign_keys) late_run) = Some [] ∧
  (sent ∘ world <$> run (init stock_sqlite_default_foreign_keys) late_run)
    ≫= last =
    Some (Broadcast (Datapoint "s1" Monitor.late_point)) ∧
  (length ∘ data_points ∘ db ∘ world <$>
     run (init stock_sqlite_default_foreign_keys) late_run) = Some 1%nat.
Proof. repeat split; vm_compute; reflexivity. Qed.

(** C6, where the code departs from it.  Two ['start'] commands for one
    pid whose lookups are both pending when the second arrives: neither is
    refused, two sessions are created, two monitors run, two 'started'
    messages go out, and the one entry of the pid names the second
    monitor only. *)
Theorem concurrent_starts_both_succeed :
  ∃ st o1 o2,
    run (init better_sqlite3_default_foreign_keys) race_run = Some st ∧
    sent (world st) =
      [Broadcast (Started session1 Monitor.node);
       Broadcast (Started session2 Monitor.node)] ∧
    getSession (db (world st)) "s1" = Some session1 ∧
    getSession (db (world st)) "s2" = Some session2 ∧
    monitors st !! 0%nat = Some o1 ∧ monitors st !! 1%nat = Some o2 ∧
    m_pid o1 = 1234 ∧ m_pid o2 = 1234 ∧
    Monitor.isRunning (Monitor.this (task o1)) = true ∧
    Monitor.isRunning (Monitor.this (task o2)) = true ∧
    Monitor.polls (task o1) = 1%nat ∧ Monitor.polls (task o2) = 1%nat ∧
    activeMonitors (world st) !! String_ 1234 = Some (mkEntry 1 "s2").
Proof.
  eexists _, _, _. split; [vm_compute; reflexivity|].
  repeat split; vm_compute; reflexivity.
Qed.

(** C8.  When the lookup of a ['start'] command settles with no process,
    the command answers "Process not found" to its socket and leaves the
    database, the monitors and the active entries as they were: no session
    row and no monitor is created.  And [ProcessMonitor.start] on a new
    monitor whose lookup finds no process throws and leaves the monitor as
    it was constructed: not running, no poll suspended, no timeout. *)
Theorem start_of_missing_process (st : State) (h : nat) (hd : Handler)
    (uuid : string) (now : Z) (localeString : string) (pid interval : Z) :
  handlers st !! h = Some hd →
  (∃ st', start_looked_up st h None uuid now localeString = Some st' ∧
          sent (world st') =
            sent (world st) ++ [Send (h_ws hd) (Error "Process not found" None)] ∧
          db (world st') = db (world st) ∧
          activeMonitors (world st') = activeMonitors (world st) ∧
          monitors st' = monitors st ∧
          handlers st' = delete h (handlers st)) ∧
  Monitor.start_resume None (Monitor.start (Monitor.new pid interval)) =
    Some (Monitor.new pid interval,
          Throw ("Process with PID " +:+ String_ pid +:+ " not found")).
Proof.
  intros Hh. split; [|reflexivity].
  unfold start_looked_up. rewrite Hh. destruct hd as [ws p name]. simpl.
  eexists. by repeat split.
Qed.

End ServerFacts.

Lemma start_of_missing_process_witness :
  Server.handlers Server.looking_up !! 0%nat =
    Some (Server.mkHandler 7 9999 None) ∧
  (∃ st', Server.start_looked_up Server.looking_up 0 None "s1" 1000
            "1/1/2026, 10:00:00" = Some st' ∧
          Server.sent (Server.world st') =
            Server.sent (Server.world Server.looking_up) ++
              [Server.Send 7 (Server.Error "Process not found" None)] ∧
          Server.db (Server.world st') =
            Server.db (Server.world Server.looking_up) ∧
          Server.activeMonitors (Server.world st') =
            Server.activeMonitors (Server.world Server.looking_up) ∧
          Server.monitors st' = Server.monitors Server.looking_up ∧
          Server.handlers st' = delete 0%nat (Server.handlers Server.looking_up)) ∧
  Monitor.start_resume None (Monitor.start (Monitor.new 9999 500)) =
    Some (Monitor.new 9999 500,
          Throw ("Process with PID " +:+ String_ 9999 +:+ " not found")).
Proof.
  split; [vm_compute; reflexivity|].
  apply (start_of_missing_process Server.looking_up 0
           (Server.mkHandler 7 9999 None)
           "s1" 1000 "1/1/2026, 10:00:00" 9999 500).
  vm_compute. reflexivity.
Defined.

(** ** More on the session store *)

Section StoreFrame.
Import SessionManager Queries.

(** [createSession] and [getSession]: a session created under a free id
    is read back as it was returned, with [endTime] and the aggregates
    null, and nothing else in the store changes; under a taken id the
    insert throws. *)
Theorem createSession_getSession (db : Database) (uuid : string) (now : Z)
    (n : string) (p : Z) (pn c : string) :
  match createSession db uuid now n p pn c with
  | Ok (db', s) =>
      getSession db uuid = None ∧ getSession db' uuid = Some s ∧
      s = mkSession uuid n p pn c now None None None None None ∧
      (∀ k, k ≠ uuid → getSession db' k = getSession db k) ∧
      data_points db' = data_points db
  | Throw e =>
      is_Some (getSession db uuid) ∧ e = SQLITE_CONSTRAINT_PRIMARYKEY
  end.
Proof.
  unfold createSession, getSession.
  destruct (sessions db !! uuid) eqn:Hu; [by eauto|]. simpl.
  split; [done|]. split; [apply lookup_insert_eq|]. split; [done|].
  split; [|done]. intros k Hk. by apply lookup_insert_ne.
Qed.

(** [updateSessionName] writes the name and nothing else: the other
    columns of the session, the other sessions and all samples stay, and
    for an id without a row the store is unchanged and the result null. *)
Theorem updateSessionName_only_name (db : Database) (sid n : string) :
  data_points (fst (updateSessionName db sid n)) = data_points db ∧
  (∀ k, k ≠ sid →
     getSession (fst (updateSessionName db sid n)) k = getSession db k) ∧
  getSession (fst (updateSessionName db sid n)) sid =
    snd (updateSessionName db sid n) ∧
  match getSession db sid with
  | None =>
      snd (updateSessionName db sid n) = None ∧
      fst (updateSessionName db sid n) = db
  | Some s =>
      ∃ s', snd (updateSessionName db sid n) = Some s' ∧
            name s' = n ∧ same_origin s s' ∧ endTime s' = endTime s ∧
            avgCpu s' = avgCpu s ∧ maxCpu s' = maxCpu s ∧
            avgMemory s' = avgMemory s ∧ maxMemory s' = maxMemory s
  end.
Proof.
  unfold updateSessionName, getSession; simpl.
  split; [done|]. split; [intros k Hk; by apply lookup_alter_ne|].
  split; [done|]. rewrite lookup_alter_eq.
  destruct (sessions db !! sid) as [s|] eqn:Hs; simpl.
  - eexists. split; [done|]. by repeat split.
  - split; [done|]. rewrite alter_id' by done. by destruct db.
Qed.

(** [endSession] touches one row of [sessions] and no sample; for an id
    without a row it changes nothing and gives null. *)
Theorem endSession_frame (db : Database) (now : Z) (sid : string) :
  data_points (fst (endSession db now sid)) = data_points db ∧
  (∀ k, k ≠ sid →
     getSession (fst (endSession db now sid)) k = getSession db k) ∧
  (getSession db sid = None →
     snd (endSession db now sid) = None ∧ fst (endSession db now sid) = db).
Proof.
  unfold endSession, getSession; simpl.
  split; [done|]. split; [intros k Hk; by apply lookup_alter_ne|].
  intros Hs. rewrite lookup_alter_eq, Hs. split; [done|].
  rewrite alter_id' by done. by destruct db.
Qed.

(** Deleting twice: the second [deleteSession] finds nothing, returns
    false and leaves the store as the first left it. *)
Theorem deleteSession_twice (db : Database) (sid : string) :
  deleteSession (fst (deleteSession db sid)) sid =
    (fst (deleteSession db sid), false).
Proof.
  unfold deleteSession at 1. simpl sessions. rewrite lookup_delete_eq.
  rewrite andb_false_r. rewrite deleteSession_data_points.
  rewrite filter_ne_twice. simpl. rewrite delete_delete_eq.
  f_equal. unfold deleteSession; simpl.
  destruct (foreign_keys db && _); [by rewrite filter_ne_twice | done].
Qed.

(** Samples of one session do not reach another: an accepted append
    puts its row last among the rows of its own session, leaves the rows
    of every other session as they were, and so leaves what [endSession]
    returns for any other session unchanged. *)
Theorem addDataPoint_isolated (db db' : Database) (sid : string) (t : Z)
    (c m : Q) (pp : option Z) :
  addDataPoint db sid t c m pp = Ok db' →
  rows_of db' sid = rows_of db sid ++ [mkRow (sequence db + 1) sid t c m pp] ∧
  ∀ sid', sid' ≠ sid →
    rows_of db' sid' = rows_of db sid' ∧
    ∀ now, snd (endSession db' now sid') = snd (endSession db now sid').
Proof.
  unfold addDataPoint. destruct (_ && _); [done|]. intros [= <-].
  assert (∀ k, rows_of
            {| foreign_keys := foreign_keys db;
               summation := summation db; sessions := sessions db;
               data_points :=
                 data_points db ++ [mkRow (sequence db + 1) sid t c m pp];
               sequence := sequence db + 1 |} k =
          rows_of db k ++
            (if decide (k = sid)
             then [mkRow (sequence db + 1) sid t c m pp] else [])) as Hrows.
  { intros k. unfold rows_of; simpl. rewrite filter_app. f_equal.
    rewrite filter_cons, filter_nil. simpl.
    destruct (decide (sid = k)) as [->|Hne].
    - by rewrite decide_True.
    - by rewrite decide_False by congruence. }
  split.
  - rewrite Hrows. by rewrite decide_True.
  - intros sid' Hne.
    assert (rows_of
              {| foreign_keys := foreign_keys db;
                 summation := summation db; sessions := sessions db;
                 data_points :=
                   data_points db ++ [mkRow (sequence db + 1) sid t c m pp];
                 sequence := sequence db + 1 |} sid' = rows_of db sid') as Hsame.
    { rewrite Hrows, decide_False by done. apply app_nil_r. }
    split; [done|]. intros now. unfold endSession, getSession.
    rewrite Hsame. simpl. done.
Qed.

End StoreFrame.

Lemma addDataPoint_isolated_witness :
  SessionManager.rows_of
    (SessionManager.apply_op SessionManager.demo_sampled
       (SessionManager.OpAddDataPoint "s1" 2400 (40#1) (400#1) None)) "s1" =
    SessionManager.rows_of SessionManager.demo_sampled "s1" ++
      [SessionManager.mkRow
         (SessionManager.sequence SessionManager.demo_sampled + 1)
         "s1" 2400 (40#1) (400#1) None] ∧
  ∀ sid', sid' ≠ "s1" →
    SessionManager.rows_of
      (SessionManager.apply_op SessionManager.demo_sampled
         (SessionManager.OpAddDataPoint "s1" 2400 (40#1) (400#1) None)) sid' =
      SessionManager.rows_of SessionManager.demo_sampled sid' ∧
    ∀ now,
      snd (SessionManager.endSession
             (SessionManager.apply_op SessionManager.demo_sampled
                (SessionManager.OpAddDataPoint "s1" 2400 (40#1) (400#1) None))
             now sid') =
      snd (SessionManager.endSession SessionManager.demo_sampled now sid').
Proof.
  apply (addDataPoint_isolated SessionManager.demo_sampled _ "s1" 2400
           (40#1) (400#1) None).
  vm_compute. reflexivity.
Defined.

(** ** Invariants of the reachable stores *)

Section StoreInvariants.
Import SessionManager Queries.

Lemma run_ops_ind (P : Database → Prop) (db : Database) (ops : list StoreOp) :
  P db → (∀ d op, P d → P (apply_op d op)) → P (run_ops db ops).
Proof.
  intros Hdb Hstep. revert db Hdb.
  induction ops as [|op ops IH]; intros db Hdb; [done|].
  simpl. apply IH. by apply Hstep.
Qed.

Lemma NoDup_rowid_filter (P : DataPointRow → Prop) `{∀ r, Decision (P r)}
    (l : list DataPointRow) :
  NoDup (map rowid l) → NoDup (map rowid (filter P l)).
Proof.
  induction l as [|r l IH]; [done|]. simpl. intros Hnd.
  apply NoDup_cons in Hnd as [Hr Hnd].
  rewrite filter_cons. destruct (decide (P r)); [|by apply IH].
  simpl. apply NoDup_cons. split; [|by apply IH].
  intros Hin. apply Hr.
  apply list_elem_of_fmap in Hin as (r' & Heq & Hin).
  apply list_elem_of_filter in Hin as [_ Hin].
  apply list_elem_of_fmap. by exists r'.
Qed.

Lemma apply_op_rowids (db : Database) (op : StoreOp) :
  rowids_fresh db → rowids_fresh (apply_op db op).
Proof.
  intros (Hnd & Hseq & Hle).
  destruct op as [u now n p pn c|sid t c m pp|now sid|sid n|sid];
    cbn [apply_op].
  - unfold createSession. by destruct (sessions db !! u).
  - unfold addDataPoint. destruct (_ && _); [done|].
    split; [|split]; simpl.
    + rewrite map_app. simpl. apply NoDup_app. split; [done|].
      split; [|apply NoDup_singleton].
      intros x Hx Hx'. apply list_elem_of_singleton in Hx'. subst x.
      apply list_elem_of_fmap in Hx as (r & Hr & Hin).
      apply Hle in Hin. lia.
    + lia.
    + intros r Hr. apply elem_of_app in Hr as [Hr|Hr].
      * apply Hle in Hr. lia.
      * apply list_elem_of_singleton in Hr. subst r. simpl. lia.
  - done.
  - done.
  - split; [|split].
    + rewrite deleteSession_data_points. by apply NoDup_rowid_filter.
    + done.
    + intros r. rewrite deleteSession_data_points.
      intros Hr. apply list_elem_of_filter in Hr as [_ Hr]. by apply Hle.
Qed.

Lemma run_ops_rowids_fresh (fk : bool) (ops : list StoreOp) :
  rowids_fresh (run_ops (initDatabase fk) ops).
Proof.
  apply run_ops_ind; [|intros d op; apply apply_op_rowids].
  split; [constructor|]. split; [done|].
  intros r Hr. by apply elem_of_nil in Hr.
Qed.

Lemma apply_op_sequence (db : Database) (op : StoreOp) :
  sequence db ≤ sequence (apply_op db op).
Proof.
  destruct op as [u now n p pn c|sid t c m pp|now sid|sid n|sid];
    cbn [apply_op].
  - unfold createSession. by destruct (sessions db !! u).
  - unfold addDataPoint. destruct (_ && _); simpl; lia.
  - done.
  - done.
  - unfold deleteSession. by destruct (foreign_keys db).
Qed.

Lemma run_ops_sequence (db : Database) (ops : list StoreOp) :
  sequence db ≤ sequence (run_ops db ops).
Proof.
  revert db. induction ops as [|op ops IH]; intros db; [done|].
  simpl. etrans; [apply (apply_op_sequence db op) | apply IH].
Qed.

(** [AUTOINCREMENT] never hands out a row id twice, also after
    deletions: the row that [addDataPoint] inserts gets a row id above
    the row id of every sample that was ever stored before, whether that
    sample is still stored or was deleted in between, and the stored row
    ids stay pairwise different. *)
Theorem rowid_never_reused (fk : bool) (ops1 ops2 : list StoreOp)
    (r : DataPointRow) (sid : string) (t : Z) (c m : Q) (pp : option Z)
    (db' : Database) :
  r ∈ data_points (run_ops (initDatabase fk) ops1) →
  addDataPoint (run_ops (run_ops (initDatabase fk) ops1) ops2) sid t c m pp =
    Ok db' →
  ∃ r', data_points db' =
          data_points (run_ops (run_ops (initDatabase fk) ops1) ops2) ++ [r'] ∧
        sessionId r' = sid ∧
        rowid r < rowid r' ∧
        NoDup (map rowid (data_points db')).
Proof.
  intros Hr Hadd.
  destruct (run_ops_rowids_fresh fk ops1) as (_ & _ & Hle1).
  pose proof (run_ops_sequence (run_ops (initDatabase fk) ops1) ops2) as Hseq.
  pose proof (run_ops_rowids_fresh fk (ops1 ++ ops2)) as Hfresh.
  unfold run_ops in Hfresh. rewrite fold_left_app in Hfresh.
  fold (run_ops (initDatabase fk) ops1) in Hfresh.
  fold (run_ops (run_ops (initDatabase fk) ops1) ops2) in Hfresh.
  pose proof (apply_op_rowids _ (OpAddDataPoint sid t c m pp) Hfresh)
    as (Hnd & _ & _).
  cbn [apply_op] in Hnd. rewrite Hadd in Hnd.
  unfold addDataPoint in Hadd. destruct (_ && _); [done|].
  injection Hadd as <-. eexists. split; [reflexivity|].
  split; [done|]. split; [|done].
  simpl. apply Hle1 in Hr. lia.
Qed.

Lemma apply_op_no_orphans (db : Database) (op : StoreOp) :
  foreign_keys db = true → no_orphans db →
  foreign_keys (apply_op db op) = true ∧ no_orphans (apply_op db op).
Proof.
  intros Hfk Hno.
  destruct op as [u now n p pn c|sid t c m pp|now sid|sid n|sid];
    cbn [apply_op].
  - unfold createSession. destruct (sessions db !! u) eqn:Hu; [done|].
    split; [done|]. intros r Hr. simpl in *.
    destruct (Hno r Hr) as [s Hs]. rewrite lookup_insert.
    case_decide; eauto.
  - unfold addDataPoint. rewrite Hfk. simpl.
    case_bool_decide as Hs; simpl; [|done]. split; [done|].
    intros r Hr. simpl in *. apply elem_of_app in Hr as [Hr|Hr]; [auto|].
    apply list_elem_of_singleton in Hr. by subst r.
  - split; [done|]. intros r Hr. simpl in *.
    destruct (Hno r Hr) as [s Hs]. rewrite lookup_alter.
    case_decide as Heq; [subst sid|]; rewrite Hs; simpl; eauto.
  - split; [done|]. intros r Hr. simpl in *.
    destruct (Hno r Hr) as [s Hs]. rewrite lookup_alter.
    case_decide as Heq; [subst sid|]; rewrite Hs; simpl; eauto.
  - split; [done|]. intros r. rewrite deleteSession_data_points.
    intros Hr. apply list_elem_of_filter in Hr as [Hne Hr].
    unfold deleteSession; simpl. rewrite lookup_delete_ne by done. auto.
Qed.

(** With foreign keys on, as better-sqlite3 opens the database, every
    stored sample belongs to a stored session, in every store reached by
    the write operations. *)
Theorem reachable_no_orphans (ops : list StoreOp) (r : DataPointRow) :
  r ∈ data_points (run_ops (initDatabase better_sqlite3_default_foreign_keys) ops) →
  is_Some (getSession
             (run_ops (initDatabase better_sqlite3_default_foreign_keys) ops)
             (sessionId r)).
Proof.
  assert (foreign_keys (run_ops (initDatabase true) ops) = true ∧
          no_orphans (run_ops (initDatabase true) ops)) as [_ Hno].
  { apply (run_ops_ind (λ d, foreign_keys d = true ∧ no_orphans d)).
    - split; [done|]. intros r' Hr'. by apply elem_of_nil in Hr'.
    - intros d op [Hfk Hd]. by apply apply_op_no_orphans. }
  apply Hno.
Qed.

Lemma apply_op_origin (db : Database) (op : StoreOp) (sid : string)
    (s : Session) :
  deletes sid op = false → getSession db sid = Some s →
  ∃ s', getSession (apply_op db op) sid = Some s' ∧ same_origin s s'.
Proof.
  unfold getSession. intros Hop Hs.
  destruct op as [u now n p pn c|sid' t c m pp|now sid'|sid' n|sid']; simpl.
  - unfold createSession. destruct (sessions db !! u) eqn:Hu.
    + by exists s.
    + simpl. rewrite lookup_insert_ne by congruence. by exists s.
  - unfold addDataPoint. destruct (_ && _); by exists s.
  - rewrite lookup_alter. case_decide as Heq; [subst sid'|];
      rewrite Hs; simpl; eexists; by split.
  - rewrite lookup_alter. case_decide as Heq; [subst sid'|];
      rewrite Hs; simpl; eexists; by split.
  - simpl in Hop. apply bool_decide_eq_false in Hop.
    rewrite lookup_delete_ne by done. by exists s.
Qed.

(** No statement updates where a session comes from: as long as the
    session is not deleted, it stays in the store and its [id], [pid],
    [processName], [command] and [startTime] are those it was created
    with, whatever operations run. *)
Theorem origin_never_updated (db : Database) (ops : list StoreOp)
    (sid : string) (s : Session) :
  forallb (λ op, negb (deletes sid op)) ops = true →
  getSession db sid = Some s →
  ∃ s', getSession (run_ops db ops) sid = Some s' ∧ same_origin s s'.
Proof.
  revert db s. induction ops as [|op ops IH]; intros db s Hops Hs.
  - by exists s.
  - simpl in Hops. apply andb_true_iff in Hops as [Hop Hops].
    apply negb_true_iff in Hop.
    destruct (apply_op_origin db op sid s Hop Hs) as (s1 & Hs1 & Ho1).
    destruct (IH _ _ Hops Hs1) as (s2 & Hs2 & Ho2).
    exists s2. split; [done|].
    destruct Ho1 as (? & ? & ? & ? & ?), Ho2 as (? & ? & ? & ? & ?).
    repeat split; congruence.
Qed.

Lemma apply_op_keyed (db : Database) (op : StoreOp) :
  keyed_by_id db → keyed_by_id (apply_op db op).
Proof.
  intros Hk k s.
  destruct op as [u now n p pn c|sid t c m pp|now sid|sid n|sid]; simpl.
  - unfold createSession. destruct (sessions db !! u) eqn:Hu; [apply Hk|].
    simpl. rewrite lookup_insert. case_decide; [|apply Hk].
    by intros [= <-].
  - unfold addDataPoint. destruct (_ && _); apply Hk.
  - rewrite lookup_alter. case_decide; [subst|apply Hk].
    destruct (sessions db !! k) eqn:Hs; [|done]. intros [= <-]. simpl.
    by apply Hk.
  - rewrite lookup_alter. case_decide; [subst|apply Hk].
    destruct (sessions db !! k) eqn:Hs; [|done]. intros [= <-]. simpl.
    by apply Hk.
  - rewrite lookup_delete. case_decide; [done|apply Hk].
Qed.

(** [getSession] answers with the session asked for: in every reachable
    store the row found under an id carries that id. *)
Theorem reachable_getSession_id (fk : bool) (ops : list StoreOp)
    (sid : string) (s : Session) :
  getSession (run_ops (initDatabase fk) ops) sid = Some s → id s = sid.
Proof.
  revert sid s. change (keyed_by_id (run_ops (initDatabase fk) ops)).
  apply run_ops_ind; [|intros d op; apply apply_op_keyed].
  intros k s Hs. simpl in Hs. by rewrite lookup_empty in Hs.
Qed.

End StoreInvariants.

Lemma reachable_no_orphans_witness :
  is_Some (SessionManager.getSession
             (SessionManager.run_ops
                (SessionManager.initDatabase
                   SessionManager.better_sqlite3_default_foreign_keys)
                SessionManager.demo_ops) "s1").
Proof.
  apply (reachable_no_orphans SessionManager.demo_ops
           (SessionManager.mkRow 1 "s1" 1100 (10#1) (100#1) None)).
  vm_compute. apply list_elem_of_here.
Defined.

Lemma origin_never_updated_witness :
  ∃ s', SessionManager.getSession
          (SessionManager.run_ops SessionManager.demo_created
             [SessionManager.OpUpdateSessionName "s1" "night run";
              SessionManager.OpEndSession 2500 "s1"]) "s1" = Some s' ∧
        Queries.same_origin SessionManager.demo_session s'.
Proof.
  apply (origin_never_updated SessionManager.demo_created
           [SessionManager.OpUpdateSessionName "s1" "night run";
            SessionManager.OpEndSession 2500 "s1"] "s1"
           SessionManager.demo_session).
  - reflexivity.
  - vm_compute. reflexivity.
Defined.

Lemma reachable_getSession_id_witness :
  SessionManager.id SessionManager.demo_finalized = "s1".
Proof.
  apply (reachable_getSession_id
           SessionManager.better_sqlite3_default_foreign_keys
           SessionManager.demo_ops "s1" SessionManager.demo_finalized).
  vm_compute. reflexivity.
Defined.

Lemma rowid_never_reused_witness :
  ∃ r', SessionManager.data_points
          (SessionManager.run_ops SessionManager.demo_sampled
             [SessionManager.OpDeleteSession "s1";
              SessionManager.OpCreateSession "s2" 3000 "node - run" 1234
                "node" "node app.js";
              SessionManager.OpAddDataPoint "s2" 3100 (10#1) (100#1) None]) =
        [] ++ [r'] ∧
        SessionManager.sessionId r' = "s2" ∧
        3 < SessionManager.rowid r' ∧
        NoDup (map SessionManager.rowid
                 (SessionManager.data_points
                    (SessionManager.run_ops SessionManager.demo_sampled
                       [SessionManager.OpDeleteSession "s1";
                        SessionManager.OpCreateSession "s2" 3000 "node - run"
                          1234 "node" "node app.js";
                        SessionManager.OpAddDataPoint "s2" 3100 (10#1) (100#1)
                          None]))).
Proof.
  apply (rowid_never_reused
           SessionManager.better_sqlite3_default_foreign_keys
           [SessionManager.OpCreateSession "s1" 1000 "node - run" 1234
              "node" "node app.js";
            SessionManager.OpAddDataPoint "s1" 1100 (10#1) (100#1) None;
            SessionManager.OpAddDataPoint "s1" 1600 (20#1) (200#1) None;
            SessionManager.OpAddDataPoint "s1" 2100 (30#1) (300#1) None]
           [SessionManager.OpDeleteSession "s1";
            SessionManager.OpCreateSession "s2" 3000 "node - run" 1234
              "node" "node app.js"]
           (SessionManager.mkRow 3 "s1" 2100 (30#1) (300#1) None)
           "s2" 3100 (10#1) (100#1) None).
  - vm_compute. apply list_elem_of_In. simpl. auto.
  - vm_compute. reflexivity.
Defined.

(** ** Aggregates and queries *)

Section StoreQueries.
Import SessionManager Queries.

Lemma sum_below_max (m : Q) (xs : list Q) :
  (∀ x, x ∈ xs → Qle x m) →
  Qle (fold_right Qplus 0%Q xs) (Qmult m (inject_Z (Z.of_nat (length xs)))).
Proof.
  induction xs as [|x xs IH]; intros Hall; simpl fold_right.
  - simpl. rewrite Qmult_0_r. apply Qle_refl.
  - simpl length. rewrite Nat2Z.inj_succ. unfold Z.succ.
    rewrite inject_Z_plus.
    assert (Qeq (Qmult m (Qplus (inject_Z (Z.of_nat (length xs))) (inject_Z 1)))
                (Qplus m (Qmult m (inject_Z (Z.of_nat (length xs))))))
      as -> by ring.
    apply Qplus_le_compat.
    + apply Hall. constructor.
    + apply IH. intros y Hy. apply Hall. by constructor.
Qed.

Lemma sql_avg_le_max (how : Summation) (xs : list Q) (a m : Q) :
  mean_exact xs → sql_avg how xs = Some a → sql_max xs = Some m → Qle a m.
Proof.
  destruct xs as [|x xs]; [done|]. intros Hexact Ha Hm.
  rewrite sql_avg_cons in Ha. injection Ha as <-.
  destruct (sql_max_cons x xs) as (m' & Hm' & _ & Hall).
  rewrite Hm in Hm'. injection Hm' as <-.
  rewrite (sqlite_avg_exact how (x :: xs) Hexact). unfold arithmetic_mean.
  apply Qle_shift_div_r.
  - change 0%Q with (inject_Z 0). rewrite <- Zlt_Qlt. simpl length. lia.
  - by apply sum_below_max.
Qed.

(** Where the cpu values of the session are doubles and neither a
    partial sum nor the mean is rounded, the [avgCpu] that [endSession]
    stores is not above the [maxCpu] it stores; likewise for memory. *)
Theorem exact_average_below_max (db : Database) (now : Z) (sid : string)
    (s' : Session) :
  snd (endSession db now sid) = Some s' →
  (mean_exact (map cpu (filter (λ r, sessionId r = sid) (data_points db))) →
   ∀ a m, avgCpu s' = Some a → maxCpu s' = Some m → Qle a m) ∧
  (mean_exact (map memory (filter (λ r, sessionId r = sid) (data_points db))) →
   ∀ a m, avgMemory s' = Some a → maxMemory s' = Some m → Qle a m).
Proof.
  unfold endSession, getSession; simpl. rewrite lookup_alter_eq.
  destruct (sessions db !! sid) as [s|]; [|done]. intros [= <-]. simpl.
  unfold rows_of.
  split; intros Hexact a m; by apply sql_avg_le_max.
Qed.

(** [getSessionWithData] is null exactly for an id without a row;
    otherwise it gives the session with all and only the samples of that
    session, each once, in non-decreasing order of timestamp. *)
Theorem getSessionWithData_sorted (db : Database) (sid : string) :
  match getSessionWithData db sid with
  | None => getSession db sid = None
  | Some (s, points) =>
      getSession db sid = Some s ∧
      points ≡ₚ
        map to_point (filter (λ r, sessionId r = sid) (data_points db)) ∧
      StronglySorted (λ a b, Monitor.timestamp a ≤ Monitor.timestamp b) points
  end.
Proof.
  unfold getSessionWithData.
  destruct (getSession db sid) as [s|]; [|done].
  split; [done|]. split.
  - apply fmap_Permutation, merge_sort_Permutation.
  - apply (StronglySorted_fmap to_point timestamp_le); [done|].
    apply StronglySorted_merge_sort; apply _.
Qed.

(** [getAllSessions] lists every stored session once and nothing else,
    latest [startTime] first. *)
Theorem getAllSessions_sorted (db : Database) :
  StronglySorted startTime_ge (getAllSessions db) ∧
  length (getAllSessions db) = size (sessions db) ∧
  ∀ s, s ∈ getAllSessions db ↔ ∃ k, getSession db k = Some s.
Proof.
  unfold getAllSessions, getSession.
  split; [apply StronglySorted_merge_sort; apply _|].
  split.
  - rewrite merge_sort_Permutation, length_fmap. apply length_map_to_list.
  - intros s. rewrite merge_sort_Permutation. rewrite list_elem_of_fmap.
    split.
    + intros ([k s'] & -> & Hin). exists k.
      by apply elem_of_map_to_list in Hin.
    + intros [k Hk]. exists (k, s). split; [done|].
      by apply elem_of_map_to_list.
Qed.

End StoreQueries.

Lemma exact_average_below_max_witness :
  Qle (20#1) (30#1) ∧ Qle (200#1) (300#1).
Proof.
  destruct (exact_average_below_max SessionManager.demo_sampled 2500 "s1"
              SessionManager.demo_finalized) as [Hcpu Hmemory].
  - vm_compute. reflexivity.
  - split.
    + apply Hcpu; [|reflexivity|reflexivity].
      split; [|by vm_compute]. repeat split; by vm_compute.
    + apply Hmemory; [|reflexivity|reflexivity].
      split; [|by vm_compute]. repeat split; by vm_compute.
Defined.

(** ** The HTTP routes *)

Section ApiFacts.
Import SessionManager Queries Api.

(** [DELETE /api/sessions/:id] answers 200 exactly when the session
    existed, and after it both [GET] and a second [DELETE] of that id
    answer 404 "Session not found". *)
Theorem delete_session_then_404 (db : Database) (id : string) :
  status (snd (delete_session db id)) =
    (if getSession db id is Some _ then 200 else 404) ∧
  get_session (fst (delete_session db id)) id =
    mkResponse 404 (ErrorBody "Session not found") ∧
  snd (delete_session (fst (delete_session db id)) id) =
    mkResponse 404 (ErrorBody "Session not found").
Proof.
  assert (fst (delete_session db id) = fst (deleteSession db id)) as Hfst.
  { unfold delete_session. destruct (deleteSession db id) as [d []]; done. }
  split; [|split].
  - unfold delete_session, deleteSession, getSession.
    by destruct (sessions db !! id).
  - rewrite Hfst. unfold get_session, getSessionWithData, getSession.
    simpl. by rewrite lookup_delete_eq.
  - rewrite Hfst. unfold delete_session, deleteSession at 1.
    simpl sessions. by rewrite lookup_delete_eq, andb_false_r.
Qed.

(** [PATCH /api/sessions/:id]: without a name, or with the empty name, it
    answers 400 and changes nothing; for an unknown id it answers 404 and
    changes nothing; otherwise it answers 200 with the renamed session, and
    [GET] of that id then shows the new name over the same samples. *)
Theorem patch_session_renames (db : Database) (id : string)
    (name' : option string) :
  match name' with
  | None => patch_session db id name' =
              (db, mkResponse 400 (ErrorBody "Name is required"))
  | Some n =>
      if bool_decide (n = "") then
        patch_session db id name' =
          (db, mkResponse 400 (ErrorBody "Name is required"))
      else
        match getSession db id with
        | None => patch_session db id name' =
                    (db, mkResponse 404 (ErrorBody "Session not found"))
        | Some s =>
            ∃ s' points,
              snd (patch_session db id name') =
                mkResponse 200 (RenamedBody s') ∧
              name s' = n ∧ same_origin s s' ∧ endTime s' = endTime s ∧
              get_session db id = mkResponse 200 (SessionBody s points) ∧
              get_session (fst (patch_session db id name')) id =
                mkResponse 200 (SessionBody s' points)
        end
  end.
Proof.
  destruct name' as [n|]; [|done]. unfold patch_session.
  case_bool_decide as Hn; [done|].
  unfold updateSessionName, get_session, getSessionWithData, getSession.
  simpl. rewrite lookup_alter_eq.
  destruct (sessions db !! id) as [s|] eqn:Hs; simpl.
  - eexists _, _. do 5 (split; [done|]).
    rewrite lookup_alter_eq, Hs. done.
  - rewrite alter_id' by done. by destruct db.
Qed.

End ApiFacts.

(** ** More on the polling monitor *)

Section SubstringFacts.

Lemma prefix_append (n h : string) :
  String.prefix n h = true ↔ ∃ b, h = n +:+ b.
Proof.
  revert h. induction n as [|c n IH]; intros h.
  - split; [intros _; by exists h | by destruct h].
  - destruct h as [|c' h]; simpl.
    + split; [done | by intros [b Hb]].
    + destruct (Ascii.ascii_dec c c') as [->|Hne].
      * rewrite IH. split; intros [b Hb]; exists b.
        -- change (String c' h = String c' (n +:+ b)). congruence.
        -- change (String c' h = String c' (n +:+ b)) in Hb. congruence.
      * split; [done|]. intros [b Hb].
        change (String c' h = String c (n +:+ b)) in Hb. congruence.
Qed.

Lemma includes_substring (h n : string) :
  includes h n = true ↔ ∃ a b, h = a +:+ n +:+ b.
Proof.
  induction h as [|c h IH]; cbn [includes].
  - rewrite orb_false_r, prefix_append. split.
    + intros [b Hb]. by exists "", b.
    + intros (a & b & Hab). destruct a as [|c a]; [by exists b|done].
  - rewrite orb_true_iff, IH, prefix_append. split.
    + intros [[b Hb]|(a & b & Hab)].
      * by exists "", b.
      * exists (String c a), b.
        change (String c h = String c (a +:+ n +:+ b)). by rewrite Hab.
    + intros (a & b & Hab). destruct a as [|c' a].
      * left. by exists b.
      * right. exists a, b.
        change (String c h = String c' (a +:+ n +:+ b)) in Hab. congruence.
Qed.

(** [poll] takes a failure for the end of the process exactly when the
    message of the error contains "No matching pid found" or "No such
    process" somewhere. *)
Theorem process_gone_substring (message : string) :
  Monitor.process_gone message = true ↔
  ∃ a b, message = a +:+ "No matching pid found" +:+ b ∨
         message = a +:+ "No such process" +:+ b.
Proof.
  unfold Monitor.process_gone. rewrite orb_true_iff, !includes_substring.
  split.
  - intros [(a & b & H)|(a & b & H)]; exists a, b; auto.
  - intros (a & b & [H|H]); [left|right]; by exists a, b.
Qed.

End SubstringFacts.

Section MonitorMore.
Import Monitor.
Context {W : Type} (L : Listeners W).

(** One poll at a time: a monitor that was started once and not started
    again never has two polls suspended, nor a poll suspended while a
    timeout is armed; the only armed timeout is the one in [this.timer],
    and while the monitor runs exactly one of the two is pending. *)
Theorem one_poll_at_a_time (pid interval : Z) (info : ProcessInfo)
    (es : list Event) (w w' : W) (m : Task) (out : list Emitted) :
  no_restart es = true →
  run L (CallStart :: LookupSettled (Some info) :: es) (new pid interval) w =
    Some (m, w', out) →
  starts m = 0%nat ∧ (polls m + length (armed m) ≤ 1)%nat ∧
  (∀ t, t ∈ armed m → timer (this m) = Some t) ∧
  (isRunning (this m) = true → (polls m + length (armed m))%nat = 1%nat).
Proof.
  intros Hes Hrun.
  change (CallStart :: LookupSettled (Some info) :: es)
    with ([CallStart; LookupSettled (Some info)] ++ es) in Hrun.
  apply run_app in Hrun as (p & wp & outp & outq & Hstart & Hrun & _).
  destruct (started_polling L pid interval info w) as [Hp Hpolling].
  rewrite Hp in Hstart. injection Hstart as <- <- <-.
  pose proof (run_single_chain L es _ _ _ _ _ (or_introl Hpolling) Hes Hrun)
    as [(Hr & Hs & [[Hp1 Ha]|[Hp0 (t & Ha & Ht)]])|(Hr & Ht & Ha & Hs & Hp1)].
  - rewrite Hp1, Ha. repeat split; try done.
    intros t Hin. by apply elem_of_nil in Hin.
  - rewrite Hp0, Ha. repeat split; try done.
    intros t' Hin. apply list_elem_of_singleton in Hin. by subst.
  - rewrite Ha. simpl. repeat split; try done; try lia.
    + intros t Hin. by apply elem_of_nil in Hin.
    + congruence.
Qed.

(** A failed reading that is not the end of the process does not stop
    the monitor: exactly one ['error'] with the message of the failure is
    emitted, and the next poll is scheduled. *)
Theorem sampling_error_keeps_polling (now : Z) (message : string) (m : Task)
    (w : W) :
  polling m → polls m = 1%nat → process_gone message = false →
  ∃ m', poll_resume L now (Rejected message) m w =
          Some (m', on_error L message w, [EmitError message]) ∧
        polling m' ∧ polls m' = 0%nat ∧
        armed m' = [next_timeout m] ∧
        timer (this m') = Some (next_timeout m).
Proof.
  intros (Hrun & Hs & Hcase) Hp Hgone.
  destruct Hcase as [[_ Ha]|[Hp0 _]]; [|congruence].
  unfold poll_resume. rewrite Hp, Hgone. unfold reschedule. simpl.
  rewrite Hrun. eexists. split; [reflexivity|]. simpl. rewrite Ha.
  split; [|done]. unfold polling; simpl. rewrite Hrun, Ha.
  do 2 (split; [done|]). right. split; [done|]. by eexists.
Qed.

(** The end of the process stops the monitor: ['stopped'] and then
    ['error'] "Process terminated" are emitted, in that order, the monitor
    is not running, nothing is armed and no further poll is pending. *)
Theorem process_gone_stops (now : Z) (message : string) (m : Task) (w : W) :
  polling m → polls m = 1%nat → process_gone message = true →
  ∃ m', poll_resume L now (Rejected message) m w =
          Some (m', on_error L "Process terminated" (on_stopped L w),
                [EmitStopped; EmitError "Process terminated"]) ∧
        quiet m' ∧ polls m' = 0%nat.
Proof.
  intros (Hrun & Hs & Hcase) Hp Hgone.
  destruct Hcase as [[_ Ha]|[Hp0 _]]; [|congruence].
  unfold poll_resume. rewrite Hp, Hgone.
  destruct (stop_quiet L (set_polls m 0) w) as (Hq & Hpolls & Hout);
    [done|simpl; lia|by left|].
  destruct (stop L (set_polls m 0) w) as [[m2 w2] out2] eqn:Hstop.
  simpl in Hq, Hpolls, Hout. subst out2.
  assert (w2 = on_stopped L w) as -> by (unfold stop in Hstop; congruence).
  exists m2. split; [done|]. by split.
Qed.

(** A reading taken in: exactly one ['data'] event is emitted, carrying
    [Date.now()] and the cpu, memory and parent pid read, and when the
    listener returns the next poll is scheduled. *)
Theorem reading_emits_data (now : Z) (stats : Stats) (m : Task) (w : W) :
  polling m → polls m = 1%nat →
  snd (on_data L (mkPoint now (stat_cpu stats) (stat_memory stats)
                    (Some (stat_ppid stats))) w) = None →
  ∃ m', poll_resume L now (Resolved stats) m w =
          Some (m',
                fst (on_data L (mkPoint now (stat_cpu stats)
                                  (stat_memory stats)
                                  (Some (stat_ppid stats))) w),
                [EmitData (mkPoint now (stat_cpu stats) (stat_memory stats)
                             (Some (stat_ppid stats)))]) ∧
        polling m' ∧ polls m' = 0%nat ∧ armed m' = [next_timeout m].
Proof.
  intros (Hrun & Hs & Hcase) Hp Hdata.
  destruct Hcase as [[_ Ha]|[Hp0 _]]; [|congruence].
  unfold poll_resume. rewrite Hp.
  destruct (on_data L _ w) as [w1 thrown]. simpl in Hdata. subst thrown.
  unfold reschedule. simpl. rewrite Hrun.
  eexists. split; [reflexivity|]. simpl. rewrite Ha.
  split; [|done]. unfold polling; simpl. rewrite Hrun, Ha.
  do 2 (split; [done|]). right. split; [done|]. by eexists.
Qed.

(** [stop] is idempotent on the monitor: a second [stop] changes nothing
    in it, and yet calls the ['stopped'] listener and emits ['stopped']
    once more. *)
Theorem stop_twice (m : Task) (w w' : W) :
  (stop L (stop L m w).1.1 w').1.1 = (stop L m w).1.1 ∧
  (stop L (stop L m w).1.1 w').1.2 = on_stopped L w' ∧
  (stop L (stop L m w).1.1 w').2 = [EmitStopped].
Proof.
  unfold stop.
  destruct (timer (this m)) as [t|] eqn:Ht; simpl; [|rewrite Ht]; done.
Qed.

End MonitorMore.

Lemma one_poll_at_a_time_witness :
  Monitor.starts Monitor.stopped_later = 0%nat ∧
  (Monitor.polls Monitor.stopped_later +
   length (Monitor.armed Monitor.stopped_later) ≤ 1)%nat ∧
  (∀ t, t ∈ Monitor.armed Monitor.stopped_later →
        Monitor.timer (Monitor.this Monitor.stopped_later) = Some t) ∧
  (Monitor.isRunning (Monitor.this Monitor.stopped_later) = true →
   (Monitor.polls Monitor.stopped_later +
    length (Monitor.armed Monitor.stopped_later))%nat = 1%nat).
Proof.
  apply (one_poll_at_a_time Monitor.silent 1234 500 Monitor.node
           (Monitor.first_reading ++ [Monitor.CallStop]) () ()
           Monitor.stopped_later
           [Monitor.EmitData (Monitor.mkPoint 1100 (10#1) (100#1) (Some 1));
            Monitor.EmitStopped]); reflexivity.
Defined.

(** ** Process lookup *)

Section ScannerFacts.
Import ProcessScanner.

(** [getProcessByPid] gives the first process of that pid, described, so
    the pid of the answer is the pid asked for and its command is empty
    only if its name is; it gives null exactly when no process has the
    pid. *)
Theorem getProcessByPid_found (processes : list PsProcess) (pid' : Z) :
  match getProcessByPid processes pid' with
  | Some i =>
      pid i = pid' ∧ (cmd i = "" → name i = "") ∧
      ∃ before p after,
        processes = before ++ p :: after ∧ i = describe p ∧
        ∀ q, q ∈ before → ps_pid q ≠ pid'
  | None => ∀ p, p ∈ processes → ps_pid p ≠ pid'
  end.
Proof.
  unfold getProcessByPid.
  induction processes as [|q l IH]; simpl.
  - intros p Hp. by apply elem_of_nil in Hp.
  - destruct (ps_pid q =? pid') eqn:Hq; simpl.
    + apply Z.eqb_eq in Hq. split; [done|]. split.
      * destruct (ps_cmd q) as [c|]; [|done]. by case_bool_decide.
      * exists [], q, l. split; [done|]. split; [done|].
        intros q' Hq'. by apply elem_of_nil in Hq'.
    + apply Z.eqb_neq in Hq.
      destruct (List.find _ l) as [p|]; simpl in *.
      * destruct IH as (Hpid & Hcmd & before & p' & after & -> & Hi & Hb).
        split; [done|]. split; [done|].
        exists (q :: before), p', after. split; [done|]. split; [done|].
        intros q' Hq'. apply elem_of_cons in Hq' as [->|Hq']; auto.
      * intros p Hp. apply elem_of_cons in Hp as [->|Hp]; auto.
Qed.

Context (toLowerCase : string → string) (localeCompare : string → string → Z).

Lemma elem_of_insert_by_name (x y : ProcessInfo) (l : list ProcessInfo) :
  y ∈ insert_by_name localeCompare x l ↔ y = x ∨ y ∈ l.
Proof.
  induction l as [|z l IH]; simpl.
  - rewrite list_elem_of_singleton. split; [by left|].
    intros [?|H]; [done|]. by apply elem_of_nil in H.
  - destruct (_ <=? 0).
    + by rewrite elem_of_cons.
    + rewrite !elem_of_cons, IH. tauto.
Qed.

Lemma elem_of_sort_by_name (y : ProcessInfo) (l : list ProcessInfo) :
  y ∈ sort_by_name localeCompare l ↔ y ∈ l.
Proof.
  induction l as [|x l IH]; simpl; [done|].
  by rewrite elem_of_insert_by_name, IH, elem_of_cons.
Qed.

Lemma length_sort_by_name (l : list ProcessInfo) :
  length (sort_by_name localeCompare l) = length l.
Proof.
  induction l as [|x l IH]; simpl; [done|]. rewrite <- IH.
  generalize (sort_by_name localeCompare l). intros l'.
  induction l' as [|z l' IH']; simpl; [done|].
  destruct (_ <=? 0); simpl; [done|]. by rewrite IH'.
Qed.

Lemma elem_of_apply_filter (filter : option string) (i : ProcessInfo)
    (l : list ProcessInfo) :
  i ∈ apply_filter toLowerCase filter l ↔
  i ∈ l ∧ match filter with
          | Some f => f = "" ∨ matches toLowerCase (toLowerCase f) i = true
          | None => True
          end.
Proof.
  unfold apply_filter. destruct filter as [f|]; [|tauto].
  case_bool_decide as Hf; [tauto|].
  rewrite !list_elem_of_In, List.filter_In. tauto.
Qed.

(** What the two lists contain.  [getAllProcesses] lists the described
    processes that pass the filter, where no filter and the empty filter
    pass everything and any other filter asks the lower-cased name or
    command to contain the lower-cased filter; with no filter it lists as
    many entries as there are processes.  [getProcessList] lists those of
    them whose lower-cased name contains one of the relevant names. *)
Theorem process_lists_contain (processes : list PsProcess)
    (filter : option string) (i : ProcessInfo) :
  (i ∈ getAllProcesses toLowerCase localeCompare processes filter ↔
   (∃ p, p ∈ processes ∧ i = describe p) ∧
   match filter with
   | Some f => f = "" ∨ matches toLowerCase (toLowerCase f) i = true
   | None => True
   end) ∧
  (i ∈ getProcessList toLowerCase localeCompare processes filter ↔
   i ∈ getAllProcesses toLowerCase localeCompare processes filter ∧
   relevant toLowerCase (name i) = true) ∧
  length (getAllProcesses toLowerCase localeCompare processes None) =
    length processes.
Proof.
  unfold getAllProcesses, getProcessList.
  rewrite !elem_of_sort_by_name, !elem_of_apply_filter.
  rewrite !list_elem_of_fmap.
  split; [|split].
  - split; intros [(p & Hi & Hp) Hf]; (split; [|done]); by exists p.
  - split.
    + intros [(p & -> & Hp) Hf].
      rewrite list_elem_of_In, List.filter_In, <- list_elem_of_In in Hp.
      destruct Hp as [Hp Hrel]. split; [|done]. split; [|done]. by exists p.
    + intros [[(p & -> & Hp) Hf] Hrel]. split; [|done]. exists p.
      split; [done|].
      rewrite list_elem_of_In, List.filter_In, <- list_elem_of_In. done.
  - rewrite length_sort_by_name. simpl. apply length_map.
Qed.

Lemma insert_by_name_sorted (x : ProcessInfo) (l : list ProcessInfo) :
  (∀ a b, localeCompare a b ≤ 0 ∨ localeCompare b a ≤ 0) →
  Sorted (name_le localeCompare) l →
  Sorted (name_le localeCompare) (insert_by_name localeCompare x l).
Proof.
  intros Htotal. induction 1 as [|y l Hl IH Hhd]; simpl.
  - by repeat constructor.
  - destruct (_ <=? 0) eqn:Hle.
    + apply Z.leb_le in Hle. by repeat constructor.
    + apply Z.leb_gt in Hle.
      assert (name_le localeCompare y x) as Hyx.
      { unfold name_le. destruct (Htotal (name x) (name y)); [lia|done]. }
      constructor; [done|].
      destruct l as [|z l]; simpl; [by constructor|].
      destruct (_ <=? 0); constructor; [done|].
      by inversion Hhd.
Qed.

(** Both lists come out in the order of [localeCompare] on the names,
    provided [localeCompare] is a total preorder. *)
Theorem process_lists_sorted (processes : list PsProcess)
    (filter : option string) :
  (∀ a b, localeCompare a b ≤ 0 ∨ localeCompare b a ≤ 0) →
  (∀ a b c, localeCompare a b ≤ 0 → localeCompare b c ≤ 0 →
            localeCompare a c ≤ 0) →
  StronglySorted (name_le localeCompare)
    (getProcessList toLowerCase localeCompare processes filter) ∧
  StronglySorted (name_le localeCompare)
    (getAllProcesses toLowerCase localeCompare processes filter).
Proof.
  intros Htotal Htrans.
  assert (Transitive (name_le localeCompare)) as Ht.
  { intros a b c. unfold name_le. apply Htrans. }
  assert (∀ l, Sorted (name_le localeCompare) (sort_by_name localeCompare l))
    as Hsorted.
  { induction l as [|x l IH]; simpl; [constructor|].
    by apply insert_by_name_sorted. }
  split; apply Sorted_StronglySorted; try done; apply Hsorted.
Qed.

End ScannerFacts.

Lemma process_lists_sorted_witness :
  StronglySorted (ProcessScanner.name_le ProcessScanner.compare_length)
    (ProcessScanner.getProcessList (λ s, s) ProcessScanner.compare_length
       ProcessScanner.snapshot None) ∧
  StronglySorted (ProcessScanner.name_le ProcessScanner.compare_length)
    (ProcessScanner.getAllProcesses (λ s, s) ProcessScanner.compare_length
       ProcessScanner.snapshot None).
Proof.
  apply (process_lists_sorted (λ s, s) ProcessScanner.compare_length
           ProcessScanner.snapshot None);
    unfold ProcessScanner.compare_length; intros; lia.
Defined.

Example getProcessByPid_snapshot :
  ProcessScanner.getProcessByPid ProcessScanner.snapshot 1234 =
    Some (ProcessScanner.mkProcessInfo 1234 "node" "node app.js"
            (Some (10#1)) (Some (100#1))) ∧
  (ProcessScanner.cmd <$>
     ProcessScanner.getProcessByPid ProcessScanner.snapshot 77) = Some "zsh" ∧
  ProcessScanner.getProcessByPid ProcessScanner.snapshot 9999 = None.
Proof. repeat split. Qed.

Lemma sampling_error_keeps_polling_witness :
  ∃ m', Monitor.poll_resume Monitor.silent 1600
          (Monitor.Rejected Monitor.EPERM) Registry.polling_task () =
          Some (m', Monitor.on_error Monitor.silent Monitor.EPERM (),
                [Monitor.EmitError Monitor.EPERM]) ∧
        Monitor.polling m' ∧ Monitor.polls m' = 0%nat ∧
        Monitor.armed m' = [Monitor.next_timeout Registry.polling_task] ∧
        Monitor.timer (Monitor.this m') =
          Some (Monitor.next_timeout Registry.polling_task).
Proof.
  apply (sampling_error_keeps_polling Monitor.silent 1600 Monitor.EPERM
           Registry.polling_task ()).
  - split; [reflexivity|]. split; [reflexivity|]. left. by split.
  - reflexivity.
  - vm_compute. reflexivity.
Defined.

Lemma process_gone_stops_witness :
  ∃ m', Monitor.poll_resume Monitor.silent 1600
          (Monitor.Rejected Monitor.ESRCH) Registry.polling_task () =
          Some (m',
                Monitor.on_error Monitor.silent "Process terminated"
                  (Monitor.on_stopped Monitor.silent ()),
                [Monitor.EmitStopped; Monitor.EmitError "Process terminated"]) ∧
        Monitor.quiet m' ∧ Monitor.polls m' = 0%nat.
Proof.
  apply (process_gone_stops Monitor.silent 1600 Monitor.ESRCH
           Registry.polling_task ()).
  - split; [reflexivity|]. split; [reflexivity|]. left. by split.
  - reflexivity.
  - vm_compute. reflexivity.
Defined.

Lemma reading_emits_data_witness :
  ∃ m', Monitor.poll_resume Monitor.silent 1600
          (Monitor.Resolved Monitor.reading) Registry.polling_task () =
          Some (m',
                fst (Monitor.on_data Monitor.silent
                       (Monitor.mkPoint 1600
                          (Monitor.stat_cpu Monitor.reading)
                          (Monitor.stat_memory Monitor.reading)
                          (Some (Monitor.stat_ppid Monitor.reading))) ()),
                [Monitor.EmitData
                   (Monitor.mkPoint 1600
                      (Monitor.stat_cpu Monitor.reading)
                      (Monitor.stat_memory Monitor.reading)
                      (Some (Monitor.stat_ppid Monitor.reading)))]) ∧
        Monitor.polling m' ∧ Monitor.polls m' = 0%nat ∧
        Monitor.armed m' = [Monitor.next_timeout Registry.polling_task].
Proof.
  apply (reading_emits_data Monitor.silent 1600 Monitor.reading
           Registry.polling_task ()).
  - split; [reflexivity|]. split; [reflexivity|]. left. by split.
  - reflexivity.
  - reflexivity.
Defined.

(** ** More on the registry *)

Section RegistryFacts.
Import SessionManager Server Registry.

Lemma poll_resume_registry (pid : Z) (s : Session) (now : Z)
    (r : Monitor.Sample) (t t' : Monitor.Task) (w w' : World)
    (out : list Monitor.Emitted) :
  Monitor.poll_resume (listeners pid s) now r t w = Some (t', w', out) →
  (Monitor.isRunning (Monitor.this t') = Monitor.isRunning (Monitor.this t) ∧
   activeMonitors w' = activeMonitors w) ∨
  (Monitor.isRunning (Monitor.this t') = false ∧
   activeMonitors w' = delete (String_ pid) (activeMonitors w)).
Proof.
  unfold Monitor.poll_resume.
  destruct (Monitor.polls t) as [|n]; [done|].
  assert (∀ m, Monitor.isRunning (Monitor.this (Monitor.reschedule m)) =
               Monitor.isRunning (Monitor.this m)) as Hre.
  { intros m. unfold Monitor.reschedule.
    by destruct (Monitor.isRunning (Monitor.this m)) eqn:Hm. }
  assert (∀ m v, Monitor.isRunning
                   (Monitor.this (Monitor.stop (listeners pid s) m v).1.1) =
                 false) as Hst.
  { intros m v. unfold Monitor.stop.
    by destruct (Monitor.timer (Monitor.this m)). }
  destruct r as [stats|message].
  - simpl Monitor.on_data.
    destruct (addDataPoint _ _ _ _ _ _) as [db'|e].
    + intros [= <- <- <-]. left. by rewrite Hre.
    + destruct (Monitor.process_gone e).
      * pose proof (Hst (Monitor.set_polls t n) w) as Hrun.
        destruct (Monitor.stop _ _ w) as [[m2 w2] st2] eqn:Hs.
        unfold Monitor.stop in Hs. injection Hs as _ <- _.
        intros [= <- <- <-]. by right.
      * intros [= <- <- <-]. left. by rewrite Hre.
  - destruct (Monitor.process_gone message).
    + pose proof (Hst (Monitor.set_polls t n) w) as Hrun.
      destruct (Monitor.stop _ _ w) as [[m2 w2] st2] eqn:Hs.
      unfold Monitor.stop in Hs. injection Hs as _ <- _.
      intros [= <- <- <-]. by right.
    + intros [= <- <- <-]. left. by rewrite Hre.
Qed.

Lemma entry_ok_update (st st' : State) (m : nat) (o : Monitored)
    (t : Monitor.Task) (k : string) (e : Entry) :
  monitors st !! m = Some o →
  monitors st' = <[m := set_task o t]> (monitors st) →
  (monitor e = m →
   Monitor.isRunning (Monitor.this t) = true) →
  entry_ok st k e → entry_ok st' k e.
Proof.
  intros Hm Hms Hrun (o' & Ho' & Hk & Hsid & Hr & Ha).
  unfold entry_ok. rewrite Hms.
  destruct (decide (monitor e = m)) as [Heq|Hne].
  - rewrite Heq in *. rewrite lookup_insert_eq.
    assert (o' = o) as -> by congruence.
    exists (set_task o t). split; [done|]. simpl. auto.
  - rewrite lookup_insert_ne by done. by exists o'.
Qed.

Lemma fresh_update (st : State) (m : nat) (o o' : Monitored) (n : nat) :
  monitors st !! m = Some o → (next_monitor st ≤ n)%nat →
  (∀ j x, monitors st !! j = Some x → (j < next_monitor st)%nat) →
  ∀ j x, <[m := o']> (monitors st) !! j = Some x → (j < n)%nat.
Proof.
  intros Hm Hn Hfresh j x. rewrite lookup_insert.
  case_decide as Hj.
  - subst j. intros _. apply Hfresh in Hm. lia.
  - intros Hx. apply Hfresh in Hx. lia.
Qed.

Lemma step_registry (st st' : State) (e : Event) :
  registry_inv st → step st e = Some st' → registry_inv st'.
Proof.
  intros [Hentries Hfresh] Hstep.
  destruct e as [ws pid name|h r uuid now loc|m r|m now r|m t|ws pid now|sid];
    simpl in Hstep.
  - (* a 'start' arrives *)
    injection Hstep as <-. unfold start_received.
    case_bool_decide; split; simpl; auto.
  - (* the lookup of the handler settles *)
    unfold start_looked_up in Hstep.
    destruct (handlers st !! h) as [[ws pid name]|]; [|done].
    destruct r as [info|]; [|injection Hstep as <-; by split].
    simpl in Hstep.
    destruct (createSession _ _ _ _ _ _ _) as [[db' s]|err];
      [|injection Hstep as <-; by split].
    injection Hstep as <-. split; simpl.
    + intros k e He. destruct (Hentries k e He) as (o & Ho & Hrest).
      exists o. split; [|done]. simpl.
      rewrite lookup_insert_ne; [done|]. apply Hfresh in Ho. lia.
    + intros j x. rewrite lookup_insert. case_decide as Hj; [lia|].
      intros Hx. apply Hfresh in Hx. lia.
  - (* the lookup of [monitor.start()] settles *)
    unfold start_completed in Hstep.
    destruct (monitors st !! m) as [o|] eqn:Hm; [|done].
    destruct (Monitor.start_resume r (task o)) as [[t started]|] eqn:Hres;
      [|done].
    destruct (awaiting o) as [[ws info]|] eqn:Haw; [|done].
    injection Hstep as <-.
    assert (∀ k e, activeMonitors (world st) !! k = Some e →
                   monitor e ≠ m) as Hother.
    { intros k e He Heq. destruct (Hentries k e He) as (o' & Ho' & _ & _ & _ & Ha).
      rewrite Heq, Hm in Ho'. injection Ho' as <-. congruence. }
    split; simpl.
    + intros k e. destruct started as [info'|err]; simpl.
      * rewrite lookup_insert. case_decide as Hk.
        -- intros [= <-]. unfold entry_ok. simpl. rewrite lookup_insert_eq.
           eexists. split; [done|]. simpl. repeat split; try done.
           unfold Monitor.start_resume in Hres.
           destruct (Monitor.starts (task o)); [done|].
           destruct r; [|done]. injection Hres as <- _.
           unfold Monitor.poll. simpl. done.
        -- intros He. destruct (Hentries k e He) as (o' & Ho' & Hrest).
           exists o'. split; [|done]. simpl.
           rewrite lookup_insert_ne; [done|]. intros Heq.
           by apply (Hother k e He).
      * intros He. destruct (Hentries k e He) as (o' & Ho' & Hrest).
        exists o'. split; [|done]. simpl.
        rewrite lookup_insert_ne; [done|]. intros Heq.
        by apply (Hother k e He).
    + apply (fresh_update st _ o _ _ Hm); [simpl; lia|done].
  - (* a poll goes on *)
    unfold polled in Hstep.
    destruct (monitors st !! m) as [o|] eqn:Hm; [|done].
    destruct (Monitor.poll_resume _ now r (task o) (world st))
      as [[[t w] out]|] eqn:Hres; [|done].
    injection Hstep as <-.
    apply poll_resume_registry in Hres as [[Hrun Hact]|[Hrun Hact]].
    + split; simpl; [|apply (fresh_update st _ o _ _ Hm); [simpl; lia|done]].
      intros k e. rewrite Hact. intros He.
      eapply (entry_ok_update st); [exact Hm|done| |by apply Hentries].
      intros Heq. destruct (Hentries k e He) as (o' & Ho' & _ & _ & Hr & _).
      rewrite Heq, Hm in Ho'. injection Ho' as <-. congruence.
    + split; simpl; [|apply (fresh_update st _ o _ _ Hm); [simpl; lia|done]].
      intros k e. rewrite Hact. rewrite lookup_delete.
      case_decide as Hk; [done|]. intros He.
      destruct (Hentries k e He) as (o' & Ho' & Hkey & Hrest).
      exists o'. split; [|done]. simpl.
      rewrite lookup_insert_ne; [done|]. intros Heq.
      assert (o' = o) as -> by congruence. congruence.
  - (* a timeout fires *)
    unfold timed_out in Hstep.
    destruct (monitors st !! m) as [o|] eqn:Hm; [|done].
    unfold Monitor.timeout_fires in Hstep.
    case_bool_decide; [|done]. injection Hstep as <-.
    split; simpl; [|apply (fresh_update st _ o _ _ Hm); [simpl; lia|done]].
    intros k e He.
    eapply (entry_ok_update st); [exact Hm|done| |by apply Hentries].
    intros Heq. destruct (Hentries k e He) as (o' & Ho' & _ & _ & Hr & _).
    rewrite Heq, Hm in Ho'. injection Ho' as <-.
    unfold Monitor.poll, Monitor.clearTimeout. simpl. rewrite Hr. done.
  - (* a 'stop' arrives *)
    unfold stop_received in Hstep.
    destruct (activeMonitors (world st) !! String_ pid) as [entry|] eqn:He;
      [|by injection Hstep as <-].
    destruct (monitors st !! monitor entry) as [o|] eqn:Hm; [|done].
    simpl in Hstep. injection Hstep as <-.
    split; simpl; [|apply (fresh_update st _ o _ _ Hm); [simpl; lia|done]].
    intros k e. rewrite !lookup_delete.
    case_decide as Hk; [done|]. case_decide as Hk'; [done|]. intros Hke.
    destruct (Hentries k e Hke) as (o' & Ho' & Hkey & Hrest).
    exists o'. split; [|done]. simpl.
    rewrite lookup_insert_ne; [done|]. intros Heq.
    assert (o' = o) as -> by congruence.
    destruct (Hentries _ _ He) as (o2 & Ho2 & Hkey2 & _).
    assert (o2 = o) as -> by congruence. congruence.
  - (* a session is deleted over HTTP *)
    injection Hstep as <-. by split.
Qed.

Lemma run_registry (es : list Event) (st st' : State) :
  registry_inv st → run st es = Some st' → registry_inv st'.
Proof.
  revert st. induction es as [|e es IH]; intros st Hinv Hrun; simpl in Hrun.
  - by injection Hrun as <-.
  - destruct (step st e) as [st1|] eqn:Hstep; [|done].
    eapply IH; [|done]. by eapply step_registry.
Qed.

Lemma init_registry (fk : bool) : registry_inv (init fk).
Proof.
  split; intros ? ? H; simpl in H; by rewrite lookup_empty in H.
Qed.

Lemma run_registry_entry (fk : bool) (es : list Event) (st : State)
    (k : string) (e : Entry) :
  run (init fk) es = Some st →
  activeMonitors (world st) !! k = Some e → entry_ok st k e.
Proof.
  intros Hrun He.
  by destruct (run_registry es _ _ (init_registry fk) Hrun) as [Hentries _];
    apply Hentries.
Qed.

(** Every entry of [activeMonitors] is sound in every state the server
    reaches: it is filed under [String(pid)] of a monitor the server
    constructed, carries the id of that monitor's session, and that
    monitor is running with its start completed. *)
Theorem reachable_entries_sound (fk : bool) (es : list Event) (st : State)
    (k : string) (e : Entry) :
  run (init fk) es = Some st →
  activeMonitors (world st) !! k = Some e →
  entry_ok st k e.
Proof.
  intros Hrun He.
  by destruct (run_registry es _ _ (init_registry fk) Hrun) as [Hentries _];
    apply Hentries.
Qed.

End RegistryFacts.

Lemma reachable_entries_sound_witness :
  Registry.entry_ok Registry.recording (String_ 1234) (Server.mkEntry 0 "s1").
Proof.
  apply (reachable_entries_sound
           SessionManager.better_sqlite3_default_foreign_keys
           Server.started_run Registry.recording (String_ 1234)
           (Server.mkEntry 0 "s1")).
  - vm_compute. reflexivity.
  - vm_compute. reflexivity.
Defined.

Section RegistryCommands.
Import SessionManager Server Registry.

(** The ['stop'] command in any state the server reaches.  For a pid
    without an entry it changes nothing.  For a pid with an entry it never
    fails: the monitor of that pid is stopped, the session of the entry is
    finalized at the time of the command, the entry is removed and exactly
    one message is added, the broadcast of the finalized session (null if
    the session row was deleted meanwhile). *)
Theorem stop_command_finalizes (fk : bool) (es : list Event) (st : State)
    (ws : nat) (pid now : Z) :
  run (init fk) es = Some st →
  match activeMonitors (world st) !! String_ pid with
  | None => step st (WsStop ws pid now) = Some st
  | Some e =>
      ∃ st' o,
        step st (WsStop ws pid now) = Some st' ∧
        activeMonitors (world st') !! String_ pid = None ∧
        db (world st') = fst (endSession (db (world st)) now (sessionId e)) ∧
        sent (world st') =
          sent (world st) ++
            [Broadcast
               (Stopped (snd (endSession (db (world st)) now (sessionId e))))] ∧
        (∀ s, getSession (db (world st)) (sessionId e) = Some s →
              ∃ s', snd (endSession (db (world st)) now (sessionId e)) =
                      Some s' ∧ endTime s' = Some now) ∧
        monitors st' !! monitor e = Some o ∧ m_pid o = pid ∧
        Monitor.isRunning (Monitor.this (task o)) = false ∧
        Monitor.timer (Monitor.this (task o)) = None
  end.
Proof.
  intros Hrun. simpl. unfold stop_received.
  destruct (activeMonitors (world st) !! String_ pid) as [e|] eqn:He; [|done].
  destruct (run_registry_entry fk es st _ _ Hrun He)
    as (o & Ho & Hkey & _).
  rewrite Ho. simpl.
  eexists _, _. split; [reflexivity|]. simpl.
  split; [apply lookup_delete_eq|]. split; [done|]. split; [done|].
  split.
  { intros s Hs.
    destruct (endSession_lookup _ now _ _ Hs)
      as (s' & Hret & _ & _ & _ & _ & Hend & _).
    by exists s'. }
  rewrite lookup_insert_eq. split; [done|]. simpl.
  split; [by apply (inj pretty) in Hkey|]. split; [done|].
  by destruct (Monitor.timer (Monitor.this (task o))) eqn:Ht.
Qed.

(** Stored before told: when a reading of a monitored process arrives,
    either its row is appended to [data_points] and then exactly one
    'datapoint' message with the session id and the reading is broadcast,
    or the insert is refused, nothing is stored, and exactly one error
    message with the session id is broadcast instead. *)
Theorem datapoint_stored_before_broadcast (st st' : State) (m : nat)
    (now : Z) (stats : Monitor.Stats) :
  step st (PidusageSettled m now (Monitor.Resolved stats)) = Some st' →
  ∃ o, monitors st !! m = Some o ∧
    match addDataPoint (db (world st)) (id (session o)) now
            (Monitor.stat_cpu stats) (Monitor.stat_memory stats)
            (Some (Monitor.stat_ppid stats)) with
    | Ok db' =>
        db (world st') = db' ∧
        data_points db' =
          data_points (db (world st)) ++
            [mkRow (sequence (db (world st)) + 1) (id (session o)) now
               (Monitor.stat_cpu stats) (Monitor.stat_memory stats)
               (Some (Monitor.stat_ppid stats))] ∧
        sent (world st') =
          sent (world st) ++
            [Broadcast
               (Datapoint (id (session o))
                  (Monitor.mkPoint now (Monitor.stat_cpu stats)
                     (Monitor.stat_memory stats)
                     (Some (Monitor.stat_ppid stats))))]
    | Throw e =>
        db (world st') = db (world st) ∧
        sent (world st') =
          sent (world st) ++ [Broadcast (Error e (Some (id (session o))))]
    end.
Proof.
  simpl. unfold polled.
  destruct (monitors st !! m) as [o|]; [|done].
  unfold Monitor.poll_resume.
  destruct (Monitor.polls (task o)) as [|n]; [done|].
  simpl Monitor.on_data. intros Hstep.
  exists o. split; [done|].
  unfold addDataPoint in *.
  destruct (foreign_keys (db (world st)) && _).
  - change (Monitor.process_gone SQLITE_CONSTRAINT_FOREIGNKEY) with false
      in Hstep.
    by injection Hstep as <-.
  - by injection Hstep as <-.
Qed.


(** A process that is gone by the time [monitor.start()] looks it up:
    the command answers "Invalid message format" to its socket, no entry
    is made and the monitor does not run, but the session row created
    before stays in the store with [endTime] null. *)
Theorem start_after_exit_leaves_session (st : State) (h ws : nat) (pid : Z)
    (name : option string) (info : Monitor.ProcessInfo)
    (uuid : string) (now : Z) (loc : string) :
  handlers st !! h = Some (mkHandler ws pid name) →
  getSession (db (world st)) uuid = None →
  ∃ st' o,
    run st [StartLookupSettled h (Some info) uuid now loc;
            MonitorLookupSettled (next_monitor st) None] = Some st' ∧
    getSession (db (world st')) uuid =
      Some (session_for uuid name pid info now loc) ∧
    endTime (session_for uuid name pid info now loc) = None ∧
    activeMonitors (world st') = activeMonitors (world st) ∧
    sent (world st') =
      sent (world st) ++ [Send ws (Error "Invalid message format" None)] ∧
    monitors st' !! next_monitor st = Some o ∧
    Monitor.isRunning (Monitor.this (task o)) = false ∧
    Monitor.polls (task o) = 0%nat ∧ Monitor.armed (task o) = [].
Proof.
  intros Hh Hfresh. unfold getSession in Hfresh.
  simpl. unfold start_looked_up. rewrite Hh. simpl.
  unfold createSession. rewrite Hfresh. simpl.
  unfold start_completed. simpl. rewrite lookup_insert_eq. simpl.
  eexists _, _. split; [reflexivity|]. simpl.
  unfold getSession. simpl. rewrite !lookup_insert_eq.
  by repeat split.
Qed.

End RegistryCommands.

(** ** The client's view *)

Section ClientFacts.
Import Server Client.

(** The chart takes every sample broadcast: a run of 'datapoint'
    messages is appended to [dataPoints] in order, whatever session ids
    they carry and whatever session the client shows, and changes nothing
    else in the view. *)
Theorem datapoints_appended_for_any_session (v : View)
    (l : list (string * Monitor.DataPoint)) :
  handle v (map (λ p, Datapoint p.1 p.2) l) =
    mkView (isConnected v) (currentSession v) (dataPoints v ++ map snd l)
      (isRecording v) (error v).
Proof.
  unfold handle. revert v. induction l as [|[sid dp] l IH]; intros v; simpl.
  - rewrite app_nil_r. by destruct v.
  - rewrite IH. simpl. by rewrite <- app_assoc.
Qed.

(** The end of a monitored process, as the client sees it: the server
    adds exactly one message, the broadcast of the error "Process
    terminated" with the session id; the client takes it whatever its
    socket, stops recording and shows "Process terminated", and the
    session it shows and its samples are left as they were, not
    finalized. *)
Theorem termination_seen_by_client (st : State) (m : nat) (o : Monitored)
    (n : nat) (now : Z) (message : string) (ws : nat) (v : View) :
  monitors st !! m = Some o → Monitor.polls (task o) = S n →
  Monitor.process_gone message = true →
  ∃ st',
    step st (PidusageSettled m now (Monitor.Rejected message)) = Some st' ∧
    sent (world st') =
      sent (world st) ++
        [Broadcast (Error "Process terminated"
                      (Some (SessionManager.id (session o))))] ∧
    handle v
      (received ws
         [Broadcast (Error "Process terminated"
                       (Some (SessionManager.id (session o))))]) =
      mkView (isConnected v) (currentSession v) (dataPoints v) false
        (Some "Process terminated").
Proof.
  intros Hm Hpolls Hgone.
  destruct (polled_process_gone st m o n now message Hm Hpolls Hgone)
    as (st' & Hstep & _ & _ & Hsent).
  exists st'. by repeat split.
Qed.

End ClientFacts.

Lemma termination_seen_by_client_witness :
  ∃ st',
    Server.step Registry.recording
      (Server.PidusageSettled 0 1600 (Monitor.Rejected Monitor.ESRCH)) =
      Some st' ∧
    Server.sent (Server.world st') =
      Server.sent (Server.world Registry.recording) ++
        [Server.Broadcast
           (Server.Error "Process terminated"
              (Some (SessionManager.id Server.session1)))] ∧
    Client.handle
      (Client.handle Client.initial
         (Client.received 3 (Server.sent (Server.world Registry.recording))))
      (Client.received 3
         [Server.Broadcast
            (Server.Error "Process terminated"
               (Some (SessionManager.id Server.session1)))]) =
      Client.mkView
        (Client.isConnected
           (Client.handle Client.initial
              (Client.received 3
                 (Server.sent (Server.world Registry.recording)))))
        (Client.currentSession
           (Client.handle Client.initial
              (Client.received 3
                 (Server.sent (Server.world Registry.recording)))))
        (Client.dataPoints
           (Client.handle Client.initial
              (Client.received 3
                 (Server.sent (Server.world Registry.recording)))))
        false (Some "Process terminated").
Proof.
  apply (termination_seen_by_client Registry.recording 0
           (Server.mkMonitored
              (Monitor.mkTask (Monitor.mkMonitor 1234 500 (Some 0%nat) true)
                 [] 1 1 0)
              1234 Server.session1 None)
           0 1600 Monitor.ESRCH 3).
  - vm_compute. reflexivity.
  - reflexivity.
  - vm_compute. reflexivity.
Defined.

Example client_after_termination :
  Client.handle Client.initial
    (Client.received 3
       (default [] (Server.sent ∘ Server.world <$>
          Server.run
            (Server.init SessionManager.better_sqlite3_default_foreign_keys)
            Server.termination_run))) =
    Client.mkView false (Some Server.session1) [Server.point1] false
      (Some "Process terminated").
Proof. vm_compute. reflexivity. Qed.

Lemma stop_command_finalizes_witness :
  match Server.activeMonitors (Server.world Registry.recording)
          !! String_ 1234 with
  | None =>
      Server.step Registry.recording (Server.WsStop 0 1234 1500) =
        Some Registry.recording
  | Some e =>
      ∃ st' o,
        Server.step Registry.recording (Server.WsStop 0 1234 1500) =
          Some st' ∧
        Server.activeMonitors (Server.world st') !! String_ 1234 = None ∧
        Server.db (Server.world st') =
          fst (SessionManager.endSession
                 (Server.db (Server.world Registry.recording)) 1500
                 (Server.sessionId e)) ∧
        Server.sent (Server.world st') =
          Server.sent (Server.world Registry.recording) ++
            [Server.Broadcast
               (Server.Stopped
                  (snd (SessionManager.endSession
                          (Server.db (Server.world Registry.recording)) 1500
                          (Server.sessionId e))))] ∧
        (∀ s, SessionManager.getSession
                (Server.db (Server.world Registry.recording))
                (Server.sessionId e) = Some s →
              ∃ s', snd (SessionManager.endSession
                           (Server.db (Server.world Registry.recording)) 1500
                           (Server.sessionId e)) = Some s' ∧
                    SessionManager.endTime s' = Some 1500) ∧
        Server.monitors st' !! Server.monitor e = Some o ∧
        Server.m_pid o = 1234 ∧
        Monitor.isRunning (Monitor.this (Server.task o)) = false ∧
        Monitor.timer (Monitor.this (Server.task o)) = None
  end.
Proof.
  apply (stop_command_finalizes
           SessionManager.better_sqlite3_default_foreign_keys
           Server.started_run Registry.recording 0 1234 1500).
  vm_compute. reflexivity.
Defined.

Lemma datapoint_stored_before_broadcast_witness :
  ∃ o, Server.monitors Registry.recording !! 0%nat = Some o ∧
    match SessionManager.addDataPoint
            (Server.db (Server.world Registry.recording))
            (SessionManager.id (Server.session o)) 1600
            (Monitor.stat_cpu Monitor.reading)
            (Monitor.stat_memory Monitor.reading)
            (Some (Monitor.stat_ppid Monitor.reading)) with
    | Ok db' =>
        Server.db (Server.world Registry.sampled) = db' ∧
        SessionManager.data_points db' =
          SessionManager.data_points
            (Server.db (Server.world Registry.recording)) ++
            [SessionManager.mkRow
               (SessionManager.sequence
                  (Server.db (Server.world Registry.recording)) + 1)
               (SessionManager.id (Server.session o)) 1600
               (Monitor.stat_cpu Monitor.reading)
               (Monitor.stat_memory Monitor.reading)
               (Some (Monitor.stat_ppid Monitor.reading))] ∧
        Server.sent (Server.world Registry.sampled) =
          Server.sent (Server.world Registry.recording) ++
            [Server.Broadcast
               (Server.Datapoint (SessionManager.id (Server.session o))
                  (Monitor.mkPoint 1600 (Monitor.stat_cpu Monitor.reading)
                     (Monitor.stat_memory Monitor.reading)
                     (Some (Monitor.stat_ppid Monitor.reading))))]
    | Throw e =>
        Server.db (Server.world Registry.sampled) =
          Server.db (Server.world Registry.recording) ∧
        Server.sent (Server.world Registry.sampled) =
          Server.sent (Server.world Registry.recording) ++
            [Server.Broadcast
               (Server.Error e (Some (SessionManager.id (Server.session o))))]
    end.
Proof.
  apply (datapoint_stored_before_broadcast Registry.recording
           Registry.sampled 0 1600 Monitor.reading).
  vm_compute. reflexivity.
Defined.


Lemma start_after_exit_leaves_session_witness :
  ∃ st' o,
    Server.run Server.looking_up
      [Server.StartLookupSettled 0 (Some Monitor.node) "s1" 1000 "today";
       Server.MonitorLookupSettled (Server.next_monitor Server.looking_up)
         None] = Some st' ∧
    SessionManager.getSession (Server.db (Server.world st')) "s1" =
      Some (Registry.session_for "s1" None 9999 Monitor.node 1000 "today") ∧
    SessionManager.endTime
      (Registry.session_for "s1" None 9999 Monitor.node 1000 "today") = None ∧
    Server.activeMonitors (Server.world st') =
      Server.activeMonitors (Server.world Server.looking_up) ∧
    Server.sent (Server.world st') =
      Server.sent (Server.world Server.looking_up) ++
        [Server.Send 7 (Server.Error "Invalid message format" None)] ∧
    Server.monitors st' !! Server.next_monitor Server.looking_up = Some o ∧
    Monitor.isRunning (Monitor.this (Server.task o)) = false ∧
    Monitor.polls (Server.task o) = 0%nat ∧
    Monitor.armed (Server.task o) = [].
Proof.
  apply (start_after_exit_leaves_session Server.looking_up 0 7 9999 None
           Monitor.node "s1" 1000 "today").
  - vm_compute. reflexivity.
  - vm_compute. reflexivity.
Defined.
